(** * Shallow embedding of [show/interfaces/__init__.py] (sonic-utilities)

    The development covers the three commands the properties below are
    about: [show interfaces breakout] (the summary printed when no
    subcommand is given), [show interfaces breakout current-mode] and
    [show interfaces mpls], together with the helper
    [try_convert_interfacename_from_alias].

    Python dictionaries are insertion-ordered association lists with
    unique keys; exceptions are the constructors of [exc], threaded
    through a small error monad [res]. *)

Set Warnings "-register-all".
From Stdlib Require Import String Ascii List ZArith Bool Lia Sorting.Sorted
  Sorting.Permutation.
Import ListNotations.
Open Scope string_scope.
Open Scope Z_scope.

(** ** Exceptions and the error monad *)

(** What escapes a command: [Abort] is [click.Abort] (exit status 1),
    [UsageError] is [ctx.fail] (exit status 2), the others are uncaught
    Python exceptions. *)
Inductive exc :=
| KeyError
| ValueError
| IndexError
| Abort
| UsageError (msg : string).

Definition res (A : Type) : Type := (A + exc)%type.

Definition ret {A} (a : A) : res A := inl a.
Definition raise {A} (e : exc) : res A := inr e.
Definition bind {A B} (m : res A) (f : A -> res B) : res B :=
  match m with inl a => f a | inr e => inr e end.

Notation "'let*' x ':=' m 'in' k" := (bind m (fun x => k))
  (at level 200, x name, m at level 100, right associativity).

(** ** Python dictionaries *)

Definition dict (V : Type) : Type := list (string * V).

(** [d.get(k)] / [k in d] *)
Fixpoint dict_get {V} (d : dict V) (k : string) : option V :=
  match d with
  | [] => None
  | (k', v) :: d' => if String.eqb k k' then Some v else dict_get d' k
  end.

Definition dict_mem {V} (d : dict V) (k : string) : bool :=
  match dict_get d k with Some _ => true | None => false end.

(** [d[k]]: a missing key raises [KeyError]. *)
Definition dict_index {V} (d : dict V) (k : string) : res V :=
  match dict_get d k with Some v => ret v | None => raise KeyError end.

(** [d[k] = v]: an existing key keeps its position, a new key goes last. *)
Fixpoint dict_set {V} (k : string) (v : V) (d : dict V) : dict V :=
  match d with
  | [] => [(k, v)]
  | (k', v') :: d' =>
      if String.eqb k k' then (k', v) :: d' else (k', v') :: dict_set k v d'
  end.

(** [d.update(e)]: the entries of [e] are assigned one by one, in order. *)
Definition dict_update {V} (d e : dict V) : dict V :=
  fold_left (fun acc kv => dict_set (fst kv) (snd kv) acc) e d.

Definition dict_keys {V} (d : dict V) : list string := map fst d.

(** ** JSON values, as [json.load] builds them *)

Inductive jvalue :=
| JNull
| JBool (b : bool)
| JNum (z : Z)
| JStr (s : string)
| JArr (l : list jvalue)
| JObj (o : list (string * jvalue)).

(** ** Strings *)

(** [sep.join(l)] *)
Definition py_join (sep : string) (l : list string) : string :=
  String.concat sep l.

(** [s.split(c)] for a one-character separator. *)
Fixpoint py_split_aux (c : ascii) (s : string) (cur : string)
    : list string :=
  match s with
  | EmptyString => [cur]
  | String a s' =>
      if Ascii.eqb a c then cur :: py_split_aux c s' ""
      else py_split_aux c s' (cur ++ String a "")
  end.

Definition py_split (c : ascii) (s : string) : list string :=
  py_split_aux c s "".

(** [sub in s] *)
Fixpoint py_contains (sub s : string) : bool :=
  String.prefix sub s ||
  match s with
  | EmptyString => false
  | String _ s' => py_contains sub s'
  end.

(** [s.startswith(p)] *)
Definition py_startswith (s p : string) : bool := String.prefix p s.

(** ** [int(s)] and [str(n)] for decimal integers *)

Definition is_digit (a : ascii) : bool :=
  let n := nat_of_ascii a in (48 <=? n)%nat && (n <=? 57)%nat.

Definition digit_val (a : ascii) : Z := Z.of_nat (nat_of_ascii a) - 48.

Definition is_py_space (a : ascii) : bool :=
  let n := nat_of_ascii a in
  (n =? 32)%nat || ((9 <=? n)%nat && (n <=? 13)%nat).

Fixpoint drop_space (l : list ascii) : list ascii :=
  match l with
  | a :: l' => if is_py_space a then drop_space l' else l
  | [] => []
  end.

(** [str.strip()] on the ASCII whitespace characters. *)
Definition py_strip (l : list ascii) : list ascii :=
  rev (drop_space (rev (drop_space l))).

(** Digits of an unsigned literal; an underscore may separate two digits. *)
Fixpoint parse_digits (l : list ascii) (acc : Z) (prev_digit : bool)
    : option Z :=
  match l with
  | [] => if prev_digit then Some acc else None
  | a :: l' =>
      if is_digit a then parse_digits l' (acc * 10 + digit_val a) true
      else if Ascii.eqb a "_"%char then
        match l' with
        | b :: _ => if prev_digit && is_digit b
                    then parse_digits l' acc false else None
        | [] => None
        end
      else None
  end.

(** [int(s)] on a string: [None] is the [ValueError] it raises. *)
Definition py_int (s : string) : option Z :=
  match py_strip (list_ascii_of_string s) with
  | "-"%char :: l => option_map Z.opp (parse_digits l 0 false)
  | "+"%char :: l => parse_digits l 0 false
  | l => parse_digits l 0 false
  end.

Definition digit_char (d : Z) : ascii := ascii_of_nat (Z.to_nat (d + 48)).

Fixpoint pos_dec (fuel : nat) (n : Z) (acc : string) : string :=
  match fuel with
  | O => acc
  | S f =>
      let acc' := String (digit_char (n mod 10)) acc in
      if n <? 10 then acc' else pos_dec f (n / 10) acc'
  end.

(** [str(n)] for an integer [n]. *)
Definition py_str_int (n : Z) : string :=
  if n <? 0 then "-" ++ pos_dec (Z.to_nat (Z.log2 (- n) + 1)) (- n) ""
  else pos_dec (Z.to_nat (Z.log2 n + 1)) n "".

(** ** [natsort.natsorted] with its default algorithm

    The key of a string splits it at the runs of ASCII digits
    ([re.split(r'(\d+)', s)]), drops the empty pieces, reads every run of
    digits as an unsigned integer and puts an empty string in front when
    the first piece is a number, so that text and numbers alternate.
    Keys compare as Python tuples; [sorted] is stable. *)

Inductive nchunk :=
| NStr (s : string)
| NNum (n : Z).

Fixpoint nat_pieces (l : list ascii) (cur : list ascii) (in_num : bool)
    : list (bool * list ascii) :=
  match l with
  | [] => [(in_num, rev cur)]
  | a :: l' =>
      if Bool.eqb (is_digit a) in_num then nat_pieces l' (a :: cur) in_num
      else (in_num, rev cur) :: nat_pieces l' [a] (is_digit a)
  end.

Fixpoint digits_val (l : list ascii) (acc : Z) : Z :=
  match l with
  | [] => acc
  | a :: l' => digits_val l' (acc * 10 + digit_val a)
  end.

Definition chunk_of (p : bool * list ascii) : nchunk :=
  if fst p then NNum (digits_val (snd p) 0) else NStr (string_of_list_ascii (snd p)).

Definition natsort_key (s : string) : list nchunk :=
  let pieces := filter (fun p => match snd p with [] => false | _ => true end)
                  (nat_pieces (list_ascii_of_string s) [] false) in
  let ks := map chunk_of pieces in
  match ks with
  | NNum _ :: _ => NStr "" :: ks
  | _ => ks
  end.

Definition chunk_compare (a b : nchunk) : comparison :=
  match a, b with
  | NStr x, NStr y => String.compare x y
  | NNum x, NNum y => Z.compare x y
  | NNum _, NStr _ => Lt
  | NStr _, NNum _ => Gt
  end.

Fixpoint key_compare (a b : list nchunk) : comparison :=
  match a, b with
  | [], [] => Eq
  | [], _ :: _ => Lt
  | _ :: _, [] => Gt
  | x :: a', y :: b' =>
      match chunk_compare x y with
      | Eq => key_compare a' b'
      | c => c
      end
  end.

Definition nat_le (a b : string) : bool :=
  match key_compare (natsort_key a) (natsort_key b) with
  | Gt => false
  | _ => true
  end.

(** Stable insertion: [x] comes from before every element of [l]. *)
Fixpoint nat_insert (x : string) (l : list string) : list string :=
  match l with
  | [] => [x]
  | y :: l' => if nat_le x y then x :: y :: l' else y :: nat_insert x l'
  end.

Fixpoint natsorted (l : list string) : list string :=
  match l with
  | [] => []
  | x :: l' => nat_insert x (natsorted l')
  end.

(** [for x in l: ...] where the body may raise. *)
Fixpoint res_map {A B} (f : A -> res B) (l : list A) : res (list B) :=
  match l with
  | [] => ret []
  | x :: l' => let* y := f x in let* ys := res_map f l' in ret (y :: ys)
  end.

(** ** Naming mode and alias conversion *)

(** [clicommon.get_interface_naming_mode()]: "default" or "alias". *)
Inductive naming_mode := Default | AliasMode.

(** A port table ([PORT] in CONFIG_DB): port name to its attributes. *)
Definition port_table := dict (dict string).

(** The alias of a port: its [alias] attribute, its own name without one. *)
Definition port_alias (name : string) (attrs : dict string) : string :=
  match dict_get attrs "alias" with Some a => a | None => name end.

(** Modelled from the spec: [InterfaceAliasConverter.alias_to_name] of
    [utilities_common.cli], which is not among the sources. It is built from
    the port metadata table, a port without an [alias] attribute being its
    own alias (spec 4.1). When no alias matches, it hands its argument back
    unchanged: the caller [try_convert_interfacename_from_alias] detects the
    failure by comparing the result with the argument (see the TODO there),
    and turns it into the error the spec calls UnknownAliasError. *)
Fixpoint alias_to_name (ports : port_table) (a : string) : string :=
  match ports with
  | [] => a
  | (name, attrs) :: ports' =>
      if String.eqb (port_alias name attrs) a then name
      else alias_to_name ports' a
  end.

(** Modelled from the spec: [InterfaceAliasConverter.name_to_alias] of
    [utilities_common.cli]: the alias of a known port (its own name when it
    has no alias attribute), the argument itself for an unknown name. *)
Definition name_to_alias (ports : port_table) (n : string) : string :=
  match dict_get ports n with Some attrs => port_alias n attrs | None => n end.

(** [try_convert_interfacename_from_alias(ctx, interfacename)] *)
Definition try_convert_interfacename_from_alias (mode : naming_mode)
    (ports : port_table) (interfacename : string) : res string :=
  match mode with
  | AliasMode =>
      let alias := interfacename in
      let interfacename := alias_to_name ports alias in
      if String.eqb interfacename alias then
        raise (UsageError ("cannot find interface name for alias " ++ alias))
      else ret interfacename
  | Default => ret interfacename
  end.

(** ** [show interfaces breakout] *)

(** [BREAKOUT_CFG] in CONFIG_DB: parent port to its fields ([brkout_mode]). *)
Definition breakout_table := dict (dict string).

(** The ["interfaces"] object of [platform.json] or [hwsku.json]: parent
    port to its JSON attributes. *)
Definition capability := dict (dict jvalue).

(** [str(int(speed)//1000)+'G'] *)
Definition speed_str (speed : string) : res string :=
  match py_int speed with
  | Some n => ret (py_str_int (n / 1000) ++ "G")
  | None => raise ValueError
  end.

Section Breakout.

(** [get_child_ports(port_name, cur_brkout_mode, platform_file)] of
    [portconfig] (sonic-config-engine): the keys of the dictionary it
    returns, in its order. *)
Variable get_child_ports : string -> string -> list string.

(** [config_db.get_entry('PORT', port).get('speed')] *)
Variable port_speed : string -> option string.

(** The loop over the child ports, lines 223-229. *)
Fixpoint collect_children (child_ports : list string)
    (children speeds : list string) : res (list string * list string) :=
  match child_ports with
  | [] => ret (children, speeds)
  | port :: rest =>
      match port_speed port with
      | Some speed =>
          let* s := speed_str speed in
          collect_children rest (children ++ [port]) (speeds ++ [s])
      | None => collect_children rest children speeds
      end
  end.

(** Lines 209-232 for a port found in [BREAKOUT_CFG]: the new value of
    [platform_dict[port_name]], computed from the current [platform_dict]. *)
Definition breakout_entry (cur_brkout_tbl : breakout_table)
    (hwsku_dict : capability) (platform_dict : capability)
    (port_name : string) : res (dict jvalue) :=
  let* row := dict_index cur_brkout_tbl port_name in
  let* cur_brkout_mode := dict_index row "brkout_mode" in
  let* entry := dict_index platform_dict port_name in
  let* sku := dict_index hwsku_dict port_name in
  let entry := dict_set "Current Breakout Mode" (JStr cur_brkout_mode)
                 (dict_update entry sku) in
  match get_child_ports port_name cur_brkout_mode with
  | [] => raise Abort
  | child_port_dict =>
      let child_ports := natsorted child_port_dict in
      let* cs := collect_children child_ports [] [] in
      let entry := dict_set "child ports" (JStr (py_join "," (fst cs))) entry in
      ret (dict_set "child port speeds" (JStr (py_join "," (snd cs))) entry)
  end.

(** One iteration of [for port_name in platform_dict], lines 206-232. *)
Definition breakout_step (cur_brkout_tbl : breakout_table)
    (hwsku_dict : capability) (platform_dict : capability)
    (port_name : string) : res capability :=
  if negb (dict_mem cur_brkout_tbl port_name) then ret platform_dict else
  let* entry := breakout_entry cur_brkout_tbl hwsku_dict platform_dict port_name in
  ret (dict_set port_name entry platform_dict).

Fixpoint breakout_loop (cur_brkout_tbl : breakout_table)
    (hwsku_dict : capability) (ports : list string)
    (platform_dict : capability) : res capability :=
  match ports with
  | [] => ret platform_dict
  | port_name :: rest =>
      let* pd := breakout_step cur_brkout_tbl hwsku_dict platform_dict port_name in
      breakout_loop cur_brkout_tbl hwsku_dict rest pd
  end.

(** [breakout(ctx)] with no subcommand. [cur_brkout_tbl] is the result of
    [config_db.get_table('BREAKOUT_CFG')] ([None]: it raised); [platform]
    and [hwsku] are the ["interfaces"] objects of the two files ([None]:
    [readJsonFile] aborted). The result is the [OrderedDict] dumped as JSON. *)
Definition breakout (cur_brkout_tbl : option breakout_table)
    (platform hwsku : option capability) : res (list (string * dict jvalue)) :=
  match cur_brkout_tbl with
  | None => raise Abort
  | Some cur =>
      match platform, hwsku with
      | Some platform_dict, Some hwsku_dict =>
          match platform_dict, hwsku_dict with
          | [], _ | _, [] => raise Abort
          | _, _ =>
              let* pd := breakout_loop cur hwsku_dict (dict_keys platform_dict)
                           platform_dict in
              res_map (fun k => let* v := dict_index pd k in ret (k, v))
                (natsorted (dict_keys pd))
          end
      | _, _ => raise Abort
      end
  end.

End Breakout.

(** [breakout current-mode [interface]]: the table is read once by the
    group callback ([group_tbl]) and once more by the subcommand ([tbl]).
    The result is the body of the printed grid. *)
Definition currrent_mode (group_tbl tbl : option breakout_table)
    (interface : option string) : res (list (list string)) :=
  match group_tbl with
  | None => raise Abort
  | Some _ =>
      match tbl with
      | None => raise Abort
      | Some cur_brkout_tbl =>
          match interface with
          | Some i =>
              if dict_mem cur_brkout_tbl i then
                let* row := dict_index cur_brkout_tbl i in
                let* m := dict_index row "brkout_mode" in
                ret [[i; m]]
              else ret [[i; "Not Available"]]
          | None =>
              res_map (fun name =>
                  let* row := dict_index cur_brkout_tbl name in
                  let* m := dict_index row "brkout_mode" in
                  ret [name; m])
                (natsorted (dict_keys cur_brkout_tbl))
          end
      end
  end.

(** ** [show interfaces mpls] *)

(** What a run shows of itself: a namespace connection
    ([multi_asic.connect_to_all_dbs_for_ns]), a printed line, or the
    printed table (its body). *)
Inductive event :=
| EConnect (ns : string)
| EPrint (line : string)
| ETable (body : list (list string)).

(** The APPL_DB of one namespace: the keys matching ["INTF_TABLE:*"] and
    [get_all] on a key. *)
Record appl_db := {
  intf_keys : list string;
  get_all : string -> dict string
}.

(** The device as [mpls] sees it, through [sonic_py_common.multi_asic],
    [utilities_common.multi_asic] and [clicommon]. *)
Record device := {
  is_multi_asic : bool;
  (** [MultiAsic(display_option, namespace_option).get_ns_list_based_on_options()] *)
  ns_list : option string -> option string -> list string;
  db_for_ns : string -> appl_db;
  is_port_internal : string -> string -> bool;
  is_port_channel_internal : string -> string -> bool;
  naming : naming_mode;
  ports : port_table
}.

(** Exit status of a command ending normally or by an exception. *)
Definition exit_status (r : res unit) : Z :=
  match r with
  | inl _ => 0
  | inr (UsageError _) => 2
  | inr _ => 1
  end.

Definition option_str_eqb (a : option string) (s : string) : bool :=
  match a with Some x => String.eqb x s | None => false end.

(** [display != "all"] and one of the three skip tests, lines 378-386. *)
Definition intf_hidden (d : device) (ns : string) (display : option string)
    (ifname : string) : bool :=
  negb (option_str_eqb display "all") &&
  (py_contains "Loopback" ifname
   || (py_startswith ifname "Ethernet" && is_port_internal d ifname ns)
   || (py_startswith ifname "PortChannel" && is_port_channel_internal d ifname ns)).

(** Lines 391-394: the value stored for an interface. *)
Definition mpls_state (mpls_intf : dict string) : string :=
  match dict_get mpls_intf "mpls" with
  | None => "disable"
  | Some m => if String.eqb m "disable" then "disable" else m
  end.

(** The loop over the INTF_TABLE keys of one namespace, lines 365-394;
    it threads [intfs_data] and [intf_found]. *)
Fixpoint intf_keys_loop (d : device) (ns : string) (display : option string)
    (interfacename : option string) (db : appl_db) (keys : list string)
    (intfs_data : dict string) (intf_found : bool)
    : res (dict string * bool) :=
  match keys with
  | [] => ret (intfs_data, intf_found)
  | key :: rest =>
      let continue := intf_keys_loop d ns display interfacename db rest in
      let tokens := py_split ":"%char key in
      match nth_error tokens 1 with
      | None => raise IndexError
      | Some ifname =>
          let record (found : bool) :=
            if intf_hidden d ns display ifname then continue intfs_data found
            else continue (dict_set ifname (mpls_state (get_all db key)) intfs_data)
                   found in
          if negb (Nat.eqb (length tokens) 2) then continue intfs_data intf_found
          else match interfacename with
               | Some n => if String.eqb n ifname then record true
                           else continue intfs_data intf_found
               | None => record intf_found
               end
      end
  end.

(** The loop over the namespaces, lines 356-394. Each namespace is
    connected to, then [interfacename] (when given) goes through
    [try_convert_interfacename_from_alias] again, then its keys are read.
    The events come first so that a failure still shows the connections
    made before it. *)
Fixpoint ns_loop (d : device) (display : option string) (nss : list string)
    (interfacename : option string) (intfs_data : dict string)
    (intf_found : bool)
    : list event * res (option string * dict string * bool) :=
  match nss with
  | [] => ([], ret (interfacename, intfs_data, intf_found))
  | ns :: rest =>
      let db := db_for_ns d ns in
      let conv := match interfacename with
                  | Some n => let* n' := try_convert_interfacename_from_alias
                                           (naming d) (ports d) n in
                              ret (Some n')
                  | None => ret None
                  end in
      match conv with
      | inr e => ([EConnect ns], inr e)
      | inl interfacename =>
          match intf_keys_loop d ns display interfacename db (intf_keys db)
                  intfs_data intf_found with
          | inr e => ([EConnect ns], inr e)
          | inl (data, found) =>
              let (tr, r) := ns_loop d display rest interfacename data found in
              (EConnect ns :: tr, r)
          end
      end
  end.

(** Lines 403-409: the rows of the table, in the natural order of the
    interface names, each shown by its alias in alias mode. *)
Definition mpls_body (d : device) (intfs_data : dict string)
    : list (list string) :=
  map (fun intf_name =>
         [match naming d with
          | AliasMode => name_to_alias (ports d) intf_name
          | Default => intf_name
          end;
          match dict_get intfs_data intf_name with Some v => v | None => "" end])
    (natsorted (dict_keys intfs_data)).

(** [mpls(ctx, interfacename, namespace, display)] *)
Definition mpls (d : device) (interfacename namespace display : option string)
    : list event * res unit :=
  let guard :=
    if is_multi_asic d then inl display
    else if option_str_eqb display "frontend" || option_str_eqb display "all"
            || match display with None => true | Some _ => false end
         then inl None
         else inr tt in
  match guard with
  | inr _ => ([EPrint "Error: Invalid display option command for single asic"], ret tt)
  | inl display =>
      let display := match interfacename with
                     | Some n => if String.eqb n "" then display else Some "all"
                     | None => display
                     end in
      let nss := ns_list d display namespace in
      let (tr, r) := ns_loop d display nss interfacename [] false in
      match r with
      | inr e => (tr, inr e)
      | inl (interfacename, intfs_data, intf_found) =>
          match interfacename with
          | Some n =>
              if negb intf_found then
                (tr, raise (UsageError ("interface " ++ n ++ " doesn`t exist")))
              else (app tr [ETable (mpls_body d intfs_data)], ret tt)
          | None => (app tr [ETable (mpls_body d intfs_data)], ret tt)
          end
      end
  end.

(** A child port with a speed in the [PORT] table. *)
Definition has_speed (port_speed : string -> option string) (port : string)
    : bool :=
  match port_speed port with Some _ => true | None => false end.

(** How a listed child port and its printed speed relate. *)
Definition speed_shown (port_speed : string -> option string)
    (port s : string) : Prop :=
  exists raw n, port_speed port = Some raw /\ py_int raw = Some n /\
                s = py_str_int (n / 1000) ++ "G".

(** The first column of a row of [mpls] for an interface name. *)
Definition display_name (d : device) (intf_name : string) : string :=
  match naming d with
  | AliasMode => name_to_alias (ports d) intf_name
  | Default => intf_name
  end.

(** ** [show interfaces alias] *)

(** One row of the listing, lines 77-80 and 90-93: the name and its
    [alias] attribute, the name twice when there is none. *)
Definition alias_row (port_name : string) (attrs : dict string) : list string :=
  [port_name; port_alias port_name attrs].

(** [alias(interfacename, namespace, display)]. [port_dict] is
    [multi_asic.get_port_table(namespace=namespace)]; the alias converter
    reads its own table [conv_ports]. The test
    [port_dict[port_name]['role'] is multi_asic.INTERNAL_PORT] compares
    objects, not values, so it is the parameter [role_is_internal_port];
    [DISPLAY_EXTERNAL] is "frontend". The result is the body of the printed
    table. *)
Definition show_alias (role_is_internal_port : string -> bool)
    (mode : naming_mode) (conv_ports port_dict : port_table)
    (interfacename display : option string) : res (list (list string)) :=
  match interfacename with
  | Some i =>
      let* interfacename := try_convert_interfacename_from_alias mode conv_ports i in
      match dict_get port_dict interfacename with
      | Some attrs => ret [alias_row interfacename attrs]
      | None => raise (UsageError ("Invalid interface name " ++ interfacename))
      end
  | None =>
      ret (flat_map (fun port_name =>
             match dict_get port_dict port_name with
             | Some attrs =>
                 if option_str_eqb display "frontend" &&
                    match dict_get attrs "role" with
                    | Some r => role_is_internal_port r
                    | None => false
                    end
                 then []
                 else [alias_row port_name attrs]
             | None => []
             end)
             (natsorted (dict_keys port_dict)))
  end.

(** ** [show interfaces neighbor expected] *)

(** [d.pop(k)]: the value and the dictionary without [k]. *)
Fixpoint dict_pop {V} (d : dict V) (k : string) : option V * dict V :=
  match d with
  | [] => (None, [])
  | (k', v) :: d' =>
      if String.eqb k k' then (Some v, d')
      else let (r, d'') := dict_pop d' k in (r, (k', v) :: d'')
  end.

(** Lines 296-300: in alias mode every port of [DEVICE_NEIGHBOR], taken in
    the natural order of the original names, is moved to the key of its
    alias ([neighbor_dict[port] = neighbor_dict.pop(temp_port)]). *)
Fixpoint rename_neighbors (mode : naming_mode) (ports : port_table)
    (names : list string) (neighbor_dict : dict (dict string))
    : res (dict (dict string)) :=
  match names with
  | [] => ret neighbor_dict
  | temp_port :: rest =>
      match mode with
      | AliasMode =>
          let port := name_to_alias ports temp_port in
          match dict_pop neighbor_dict temp_port with
          | (Some v, nd) => rename_neighbors mode ports rest (dict_set port v nd)
          | (None, _) => raise KeyError
          end
      | Default => rename_neighbors mode ports rest neighbor_dict
      end
  end.

(** [m[f] if f in m else 'None'] *)
Definition field_or_none (m : dict string) (f : string) : string :=
  match dict_get m f with Some v => v | None => "None" end.

(** The row of one port, lines 306-312 and 319-325; a missing key raises
    [KeyError]. *)
Definition neighbor_row (neighbor_dict neighbor_metadata_dict : dict (dict string))
    (port : string) : res (list string) :=
  let* entry := dict_index neighbor_dict port in
  let* device := dict_index entry "name" in
  let* nport := dict_index entry "port" in
  let* meta := dict_index neighbor_metadata_dict device in
  ret [port; device; nport; field_or_none meta "lo_addr";
       field_or_none meta "mgmt_addr"; field_or_none meta "type"].

(** Lines 317-327: the rows of the ports, in order, a port whose row raises
    [KeyError] being passed over. *)
Definition neighbor_rows (neighbor_dict neighbor_metadata_dict : dict (dict string))
    (ports : list string) : list (list string) :=
  flat_map (fun port =>
              match neighbor_row neighbor_dict neighbor_metadata_dict port with
              | inl r => [r]
              | inr _ => []
              end) ports.

(** What [expected] prints: a message, or the body of its table. *)
Inductive expected_out :=
| ExpMsg (line : string)
| ExpTable (body : list (list string)).

(** [expected(db, interfacename)]: [None] for a table is a [get_table]
    that returned [None]. *)
Definition expected (mode : naming_mode) (ports : port_table)
    (neighbor_tbl neighbor_metadata_tbl : option (dict (dict string)))
    (interfacename : option string) : res expected_out :=
  match neighbor_tbl with
  | None => ret (ExpMsg "DEVICE_NEIGHBOR information is not present.")
  | Some nd0 =>
      match neighbor_metadata_tbl with
      | None => ret (ExpMsg "DEVICE_NEIGHBOR_METADATA information is not present.")
      | Some md =>
          let* nd := rename_neighbors mode ports (natsorted (dict_keys nd0)) nd0 in
          let listing := ExpTable (neighbor_rows nd md (natsorted (dict_keys nd))) in
          match interfacename with
          | Some i =>
              if String.eqb i "" then ret listing
              else
                match neighbor_row nd md i with
                | inl r => ret (ExpTable [r])
                | inr _ =>
                    ret (ExpMsg ("No neighbor information available for interface " ++ i))
                end
          | None => ret listing
          end
      end
  end.

(** ** [show interfaces tx_error] *)

(** [s.replace(old, new)] for a non-empty [old]: every occurrence, from
    left to right, without overlaps. *)
Fixpoint py_replace_aux (fuel : nat) (old new s : string) : string :=
  match fuel with
  | O => s
  | S f =>
      if String.prefix old s then
        new ++ py_replace_aux f old new
                  (String.substring (String.length old)
                     (String.length s - String.length old) s)
      else
        match s with
        | EmptyString => EmptyString
        | String a s' => String a (py_replace_aux f old new s')
        end
  end.

Definition py_replace (s old new : string) : string :=
  py_replace_aux (S (String.length s)) old new s.

(** [tx_error(interfacename)]: [txerr_keys] are the STATE_DB keys matching
    ["TX_ERR_STATE|*"], [state_get key field] is [state_db.get] ([None] for
    a missing field) and [appl_get_all] is [appl_db.get_all] on APPL_DB. The
    APPL_DB keys the command also reads are never used. The result is the
    body of the table, a missing value being [None]. *)
Definition tx_error (txerr_keys : list string)
    (state_get : string -> string -> option string)
    (appl_get_all : string -> dict string) : list (list (option string)) :=
  let prefix_statedb := "TX_ERR_STATE|" in
  let prefix_appldb := "TX_ERR_APPL:" in
  map (fun k =>
         let k := py_replace k prefix_statedb "" in
         let entry := appl_get_all (prefix_appldb ++ k) in
         [Some k; state_get (prefix_statedb ++ k) "tx_status";
          Some (match dict_get entry "tx_error_stati" with
                | None => ""
                | Some v => v
                end)])
    txerr_keys.

(** ** Commands handed to [intfutil] *)

(** [str(x)] for an optional string. *)
Definition py_str_opt (x : option string) : string :=
  match x with Some s => s | None => "None" end.

(** The argument list of [description], [status], [tpid],
    [autoneg status], [link-training status] and [fec status]
    (lines 101-119, 133-150, 156-173, 715-733, 748-766, 781-799), which
    differ only in the [-c] value [c]. *)
Definition intfutil_cmd (c : string) (mode : naming_mode) (ports : port_table)
    (interfacename namespace display : option string) : res (list string) :=
  let cmd := ["intfutil"; "-c"; c] in
  let* cmd := match interfacename with
              | Some i =>
                  let* n := try_convert_interfacename_from_alias mode ports i in
                  ret (app cmd ["-i"; n])
              | None => ret (app cmd ["-d"; py_str_opt display])
              end in
  ret (match namespace with
       | Some ns => app cmd ["-n"; ns]
       | None => cmd
       end).

(** ** Sample configurations *)

(** A platform with parents Ethernet0 and Ethernet4; only Ethernet0 has been
    broken out (4x25G) and its four children run at 25000 Mb/s. *)
Definition sample_child_ports (port_name mode : string) : list string :=
  if String.eqb port_name "Ethernet0" then
    if String.eqb mode "4x25G"
    then ["Ethernet3"; "Ethernet1"; "Ethernet0"; "Ethernet2"]
    else ["Ethernet0"]
  else [port_name].

Definition sample_port_speed (port : string) : option string :=
  if String.eqb port "Ethernet4" then None else Some "25000".

Definition sample_platform : capability :=
  [("Ethernet0", [("index", JStr "1,1,1,1");
                  ("breakout_modes", JObj [("1x100G", JArr [JStr "etp1"]);
                                           ("4x25G", JArr [JStr "etp1a"; JStr "etp1b";
                                                           JStr "etp1c"; JStr "etp1d"])])]);
   ("Ethernet4", [("index", JStr "2,2,2,2");
                  ("breakout_modes", JObj [("1x100G", JArr [JStr "etp2"])])])].

Definition sample_hwsku : capability :=
  [("Ethernet0", [("default_brkout_mode", JStr "1x100G")]);
   ("Ethernet4", [("default_brkout_mode", JStr "1x100G")])].

Definition sample_breakout_cfg : breakout_table :=
  [("Ethernet0", [("brkout_mode", "4x25G")])].

(** A two-namespace device: asic0 holds Loopback0 and Ethernet4, asic1
    holds Ethernet0 (with an address entry as well). *)
Definition sample_appl_db (ns : string) : appl_db :=
  if String.eqb ns "asic1" then
    {| intf_keys := ["INTF_TABLE:Ethernet0"; "INTF_TABLE:Ethernet0:10.0.0.0/31"];
       get_all := fun k => if String.eqb k "INTF_TABLE:Ethernet0"
                           then [("mpls", "enable")] else [] |}
  else
    {| intf_keys := ["INTF_TABLE:Loopback0"; "INTF_TABLE:Ethernet4"];
       get_all := fun _ => [] |}.

Definition sample_device (multi : bool) (mode : naming_mode)
    (ports : port_table) : device := {|
  is_multi_asic := multi;
  ns_list := fun _ _ => if multi then ["asic0"; "asic1"] else [""];
  db_for_ns := sample_appl_db;
  is_port_internal := fun _ _ => false;
  is_port_channel_internal := fun _ _ => false;
  naming := mode;
  ports := ports
|}.

Definition sample_ports : port_table :=
  [("Ethernet0", [("alias", "etp1"); ("role", "Ext")]);
   ("Ethernet4", [("alias", "etp2"); ("role", "Ext")])].

(** Aliases that do not follow the order of the names. *)
Definition sample_ports_crossed : port_table :=
  [("Ethernet0", [("alias", "Eth1/2")]);
   ("Ethernet4", [("alias", "Eth1/1")])].

(** A [DEVICE_NEIGHBOR] table with Ethernet4 before Ethernet0, and the
    metadata of the first neighbor only, without a management address. *)
Definition sample_neighbors : dict (dict string) :=
  [("Ethernet4", [("name", "ARISTA02T1"); ("port", "Ethernet1")]);
   ("Ethernet0", [("name", "ARISTA01T1"); ("port", "Ethernet1")])].

Definition sample_neighbor_metadata : dict (dict string) :=
  [("ARISTA01T1", [("lo_addr", "10.1.0.1"); ("type", "LeafRouter")])].

(** * Properties *)

(** ** Helpers on samples *)

Example natsorted_ports :
  natsorted ["Ethernet8"; "Ethernet12"; "Ethernet0"; "Ethernet4"]
  = ["Ethernet0"; "Ethernet4"; "Ethernet8"; "Ethernet12"].
Proof. reflexivity. Qed.

Example py_int_speed : py_int " 25_000" = Some 25000.
Proof. reflexivity. Qed.

Example py_str_int_25 : py_str_int 25 = "25" /\ py_str_int (-1) = "-1"
  /\ py_str_int 0 = "0" /\ py_str_int 400 = "400".
Proof. repeat split; reflexivity. Qed.

(** ** Dictionaries *)

Lemma dict_get_set {V} (d : dict V) k v k' :
  dict_get (dict_set k v d) k' = if String.eqb k' k then Some v else dict_get d k'.
Proof.
  induction d as [|[k0 v0] d IH]; simpl.
  - reflexivity.
  - destruct (String.eqb k k0) eqn:E; simpl.
    + apply String.eqb_eq in E; subst k0.
      destruct (String.eqb k' k); reflexivity.
    + rewrite IH. destruct (String.eqb k' k) eqn:E1; [|reflexivity].
      apply String.eqb_eq in E1; subst k'.
      rewrite E. reflexivity.
Qed.

Lemma dict_get_in {V} (d : dict V) k :
  dict_get d k <> None <-> In k (dict_keys d).
Proof.
  induction d as [|[k0 v0] d IH]; simpl.
  - tauto.
  - destruct (String.eqb k k0) eqn:E.
    + apply String.eqb_eq in E; subst; split; [auto | discriminate].
    + apply String.eqb_neq in E. rewrite IH. split; [auto|].
      intros [H|H]; [congruence | exact H].
Qed.

Lemma dict_mem_in {V} (d : dict V) k :
  dict_mem d k = true <-> In k (dict_keys d).
Proof.
  unfold dict_mem. rewrite <- dict_get_in.
  destruct (dict_get d k); split; congruence.
Qed.

Lemma dict_keys_set_in {V} (d : dict V) k v :
  In k (dict_keys d) -> dict_keys (dict_set k v d) = dict_keys d.
Proof.
  induction d as [|[k0 v0] d IH]; simpl; [tauto|].
  intros H. destruct (String.eqb k k0) eqn:E; simpl; [reflexivity|].
  apply String.eqb_neq in E. f_equal. apply IH. destruct H; [congruence|auto].
Qed.

Lemma dict_get_update {V} (d e : dict V) k :
  NoDup (dict_keys e) ->
  dict_get (dict_update d e) k =
  match dict_get e k with Some v => Some v | None => dict_get d k end.
Proof.
  unfold dict_update. revert d.
  induction e as [|[k0 v0] e IH]; intros d Hnd; simpl; [reflexivity|].
  inversion Hnd as [|? ? Hnin Hnd']; subst.
  rewrite IH by exact Hnd'. rewrite dict_get_set.
  destruct (String.eqb k k0) eqn:E.
  - apply String.eqb_eq in E; subst k0.
    destruct (dict_get e k) eqn:G; [|reflexivity].
    exfalso. apply Hnin. apply dict_get_in. congruence.
  - destruct (dict_get e k); reflexivity.
Qed.

(** ** Natural sort *)

Lemma nat_insert_perm x l : Permutation (nat_insert x l) (x :: l).
Proof.
  induction l as [|y l IH]; simpl; [auto|].
  destruct (nat_le x y); [auto|].
  eapply perm_trans; [apply perm_skip, IH | apply perm_swap].
Qed.

Lemma natsorted_perm l : Permutation (natsorted l) l.
Proof.
  induction l as [|x l IH]; simpl; [auto|].
  eapply perm_trans; [apply nat_insert_perm | auto].
Qed.

Lemma chunk_compare_antisym a b :
  chunk_compare a b = CompOpp (chunk_compare b a).
Proof.
  destruct a, b; simpl; try reflexivity.
  - apply String.compare_antisym.
  - apply Z.compare_antisym.
Qed.

Lemma key_compare_antisym a b :
  key_compare a b = CompOpp (key_compare b a).
Proof.
  revert b; induction a as [|x a IH]; intros [|y b]; simpl; try reflexivity.
  rewrite (chunk_compare_antisym x y).
  destruct (chunk_compare y x); simpl; auto.
Qed.

Lemma nat_le_total a b : nat_le a b = false -> nat_le b a = true.
Proof.
  unfold nat_le. rewrite (key_compare_antisym (natsort_key b)).
  destruct (key_compare (natsort_key a) (natsort_key b)); simpl; congruence.
Qed.

Definition nat_le_rel (a b : string) : Prop := nat_le a b = true.

Lemma nat_insert_sorted x l :
  Sorted nat_le_rel l -> Sorted nat_le_rel (nat_insert x l).
Proof.
  induction 1 as [|y l Hs IH Hhd]; simpl.
  - repeat constructor.
  - destruct (nat_le x y) eqn:E.
    + constructor; [constructor; auto | constructor; exact E].
    + constructor; [exact IH|].
      destruct l as [|z l]; simpl.
      * constructor. apply nat_le_total, E.
      * inversion Hhd; subst.
        destruct (nat_le x z); constructor; auto. apply nat_le_total, E.
Qed.

Lemma natsorted_sorted l : Sorted nat_le_rel (natsorted l).
Proof.
  induction l; simpl; [constructor | apply nat_insert_sorted; auto].
Qed.

(** ** The breakout summary *)

Section BreakoutProofs.

Variable get_child_ports : string -> string -> list string.
Variable port_speed : string -> option string.


Lemma collect_children_spec cs ch0 sp0 ch sp :
  collect_children port_speed cs ch0 sp0 = inl (ch, sp) ->
  ch = (ch0 ++ filter (has_speed port_speed) cs)%list /\
  (Forall2 (speed_shown port_speed) ch0 sp0 -> Forall2 (speed_shown port_speed) ch sp).
Proof.
  revert ch0 sp0.
  induction cs as [|c cs IH]; intros ch0 sp0 H; simpl in H.
  - inversion H; subst. rewrite app_nil_r. auto.
  - unfold has_speed at 1; simpl.
    destruct (port_speed c) as [raw|] eqn:Es.
    + unfold speed_str in H. destruct (py_int raw) as [n|] eqn:Ei; [|discriminate].
      simpl in H. apply IH in H as [Hch Hf]. split.
      * rewrite Hch, <- app_assoc. reflexivity.
      * intros H0. apply Hf. apply Forall2_app; [exact H0|].
        constructor; [|constructor]. exists raw, n. auto.
    + apply IH in H as [Hch Hf]. auto.
Qed.

Lemma breakout_entry_frame cur hw pd pd0 p :
  dict_get pd p = dict_get pd0 p -> breakout_entry get_child_ports port_speed cur hw pd p = breakout_entry get_child_ports port_speed cur hw pd0 p.
Proof.
  intros H. unfold breakout_entry, dict_index. rewrite H. reflexivity.
Qed.

Lemma breakout_loop_spec cur hw ks pd0 pd' :
  NoDup ks -> (forall k, In k ks -> In k (dict_keys pd0)) ->
  breakout_loop get_child_ports port_speed cur hw ks pd0 = inl pd' ->
  dict_keys pd' = dict_keys pd0 /\
  forall p,
    ((In p ks /\ dict_mem cur p = true) ->
     exists e', breakout_entry get_child_ports port_speed cur hw pd0 p = inl e' /\ dict_get pd' p = Some e') /\
    (~ (In p ks /\ dict_mem cur p = true) -> dict_get pd' p = dict_get pd0 p).
Proof.
  revert pd0.
  induction ks as [|k ks IH]; intros pd0 Hnd Hin H; simpl in H.
  - inversion H; subst. split; [reflexivity|].
    intros p; split; [intros [[] _] | reflexivity].
  - inversion Hnd as [|? ? Hk Hnd']; subst.
    unfold breakout_step in H.
    destruct (dict_mem cur k) eqn:Em; simpl in H.
    + destruct (breakout_entry get_child_ports port_speed cur hw pd0 k) as [e|x]
        eqn:Ee; simpl in H; [|discriminate].
      assert (Hkin : In k (dict_keys pd0)) by (apply Hin; left; reflexivity).
      apply IH in H as [Hkeys Hp]; [| exact Hnd' |].
      2: { intros k' Hk'. rewrite dict_keys_set_in by exact Hkin.
           apply Hin; right; exact Hk'. }
      split; [rewrite Hkeys; apply dict_keys_set_in, Hkin|].
      intros p. destruct (Hp p) as [Hyes Hno].
      destruct (String.eqb p k) eqn:Epk.
      * apply String.eqb_eq in Epk; subst p.
        split.
        -- intros _. exists e. split; [exact Ee|].
           rewrite Hno by tauto. rewrite dict_get_set, String.eqb_refl. reflexivity.
        -- intros Hn. exfalso. apply Hn. split; [left|]; auto.
      * apply String.eqb_neq in Epk. split.
        -- intros [[Hpk|Hpks] Hm]; [congruence|].
           destruct (Hyes (conj Hpks Hm)) as [e' [He' Hg]].
           exists e'. split; [|exact Hg].
           rewrite <- He'. symmetry. apply breakout_entry_frame.
           rewrite dict_get_set. apply String.eqb_neq in Epk. rewrite Epk. reflexivity.
        -- intros Hn. rewrite Hno.
           ++ rewrite dict_get_set. apply String.eqb_neq in Epk. rewrite Epk. reflexivity.
           ++ intros [Hp1 Hp2]. apply Hn. split; [right|]; auto.
    + inversion H as [H']. apply IH in H' as [Hkeys Hp]; [| exact Hnd' |].
      2: { intros k' Hk'. apply Hin; right; exact Hk'. }
      split; [exact Hkeys|]. intros p. destruct (Hp p) as [Hyes Hno]. split.
      * intros [[Hpk|Hpks] Hm]; [subst; congruence|]. apply Hyes; auto.
      * intros Hn. apply Hno. intros [Hp1 Hp2]. apply Hn. split; [right|]; auto.
Qed.

Lemma res_map_lookup (pd : capability) l out :
  res_map (fun k => let* v := dict_index pd k in ret (k, v)) l = inl out ->
  forall k, In k l -> dict_get out k = dict_get pd k.
Proof.
  revert out. induction l as [|x l IH]; intros out H k Hk; simpl in H; [destruct Hk|].
  unfold dict_index in H. destruct (dict_get pd x) as [v|] eqn:Ex; simpl in H;
    [|discriminate].
  destruct (res_map _ l) as [ys|e] eqn:Er; simpl in H; [|discriminate].
  inversion H; subst out. simpl.
  destruct (String.eqb k x) eqn:E.
  - apply String.eqb_eq in E; subst; auto.
  - apply String.eqb_neq in E. destruct Hk as [Hk|Hk]; [congruence|]. auto.
Qed.

(** The shape of the whole summary: a port of the platform file is kept,
    changed by [breakout_entry] when it is in [BREAKOUT_CFG] and as it is
    otherwise. *)
Lemma breakout_spec cur platform hw out :
  NoDup (dict_keys platform) ->
  breakout get_child_ports port_speed (Some cur) (Some platform) (Some hw) = inl out ->
  forall p, In p (dict_keys platform) ->
    (dict_mem cur p = true ->
     exists e', breakout_entry get_child_ports port_speed cur hw platform p = inl e' /\ dict_get out p = Some e') /\
    (dict_mem cur p = false -> dict_get out p = dict_get platform p).
Proof.
  intros Hnd H p Hp. revert H. unfold breakout.
  destruct platform as [|pe pl]; [discriminate|].
  destruct hw as [|he hl]; [discriminate|]. intros H.
  destruct (breakout_loop get_child_ports port_speed cur (he :: hl) (dict_keys (pe :: pl)) (pe :: pl)) as [pd|x] eqn:El;
    cbv beta iota in H; simpl in H; [|discriminate].
  apply breakout_loop_spec in El as [Hkeys Hspec]; [| exact Hnd | auto].
  assert (Hout : dict_get out p = dict_get pd p).
  { apply (res_map_lookup pd (natsorted (dict_keys pd))); [exact H|].
    eapply Permutation_in; [symmetry; apply natsorted_perm|].
    rewrite Hkeys. exact Hp. }
  rewrite Hout. destruct (Hspec p) as [Hyes Hno]. split.
  - intros Hm. apply Hyes. auto.
  - intros Hm. apply Hno. intros [_ H']. congruence.
Qed.

Lemma breakout_entry_inv cur hw pd p e' :
  breakout_entry get_child_ports port_speed cur hw pd p = inl e' ->
  exists row mode e s ch sp,
    dict_get cur p = Some row /\ dict_get row "brkout_mode" = Some mode /\
    dict_get pd p = Some e /\ dict_get hw p = Some s /\
    get_child_ports p mode <> [] /\
    collect_children port_speed (natsorted (get_child_ports p mode)) [] [] = inl (ch, sp) /\
    e' = dict_set "child port speeds" (JStr (py_join "," sp))
           (dict_set "child ports" (JStr (py_join "," ch))
              (dict_set "Current Breakout Mode" (JStr mode) (dict_update e s))).
Proof.
  unfold breakout_entry, dict_index, bind, ret, raise.
  destruct (dict_get cur p) as [row|] eqn:E1; cbv beta iota; [|discriminate].
  destruct (dict_get row "brkout_mode") as [mode|] eqn:E2; cbv beta iota; [|discriminate].
  destruct (dict_get pd p) as [e|] eqn:E3; cbv beta iota; [|discriminate].
  destruct (dict_get hw p) as [s|] eqn:E4; cbv beta iota; [|discriminate].
  destruct (get_child_ports p mode) as [|c cs] eqn:Ec; [discriminate|].
  destruct (collect_children port_speed (natsorted (c :: cs)) [] [])
    as [[ch sp]|x] eqn:Ecc; cbv beta iota; [|discriminate].
  intros H. inversion H. exists row, mode, e, s, ch, sp. rewrite Ec.
  repeat split; first [reflexivity | discriminate | assumption].
Qed.

End BreakoutProofs.

(** ** Claims on [show interfaces breakout] *)

(** Claim C1 (as amended): a parent port of the platform file that has no
    entry in [BREAKOUT_CFG] is not left out of the breakout summary; it is
    printed with its platform entry exactly as the platform file has it
    (no current mode, no SKU fields, no child ports). *)
Theorem breakout_keeps_unconfigured_port gcp spd cur platform hw out p :
  NoDup (dict_keys platform) ->
  breakout gcp spd (Some cur) (Some platform) (Some hw) = inl out ->
  In p (dict_keys platform) ->
  dict_mem cur p = false ->
  dict_get out p = dict_get platform p.
Proof.
  intros Hnd H Hp Hm.
  destruct (breakout_spec gcp spd cur platform hw out Hnd H p Hp) as [_ Hno].
  apply Hno, Hm.
Qed.

Lemma breakout_keeps_unconfigured_port_witness :
  NoDup (dict_keys sample_platform) /\
  In "Ethernet4" (dict_keys sample_platform) /\
  dict_mem sample_breakout_cfg "Ethernet4" = false /\
  exists out,
    breakout sample_child_ports sample_port_speed (Some sample_breakout_cfg)
      (Some sample_platform) (Some sample_hwsku) = inl out /\
    dict_get out "Ethernet4" = dict_get sample_platform "Ethernet4".
Proof.
  assert (Hnd : NoDup (dict_keys sample_platform)).
  { simpl. constructor; [simpl; intros [H|[]]; discriminate | constructor; [simpl; tauto | constructor]]. }
  split; [exact Hnd|]. split; [simpl; auto|]. split; [reflexivity|].
  eexists. split; [reflexivity|].
  apply (breakout_keeps_unconfigured_port sample_child_ports sample_port_speed
           sample_breakout_cfg sample_platform sample_hwsku); [exact Hnd | reflexivity | simpl; auto | reflexivity].
Defined.

(** Claim C1, counterexample: Ethernet4 is in the platform file and not in
    [BREAKOUT_CFG], and the summary still lists it. *)
Lemma breakout_lists_unconfigured_port :
  dict_mem sample_platform "Ethernet4" = true /\
  dict_mem sample_breakout_cfg "Ethernet4" = false /\
  exists out,
    breakout sample_child_ports sample_port_speed (Some sample_breakout_cfg)
      (Some sample_platform) (Some sample_hwsku) = inl out /\
    dict_keys out = ["Ethernet0"; "Ethernet4"] /\
    dict_get out "Ethernet4" =
      Some [("index", JStr "2,2,2,2");
            ("breakout_modes", JObj [("1x100G", JArr [JStr "etp2"])])].
Proof.
  split; [reflexivity|]. split; [reflexivity|].
  eexists. split; [reflexivity|]. split; reflexivity.
Qed.

(** The printed entry of a parent port found in [BREAKOUT_CFG]. *)
Lemma breakout_retained_entry gcp spd cur platform hw out p :
  NoDup (dict_keys platform) ->
  breakout gcp spd (Some cur) (Some platform) (Some hw) = inl out ->
  In p (dict_keys platform) ->
  dict_mem cur p = true ->
  exists row mode e s ch sp,
    dict_get cur p = Some row /\ dict_get row "brkout_mode" = Some mode /\
    dict_get platform p = Some e /\ dict_get hw p = Some s /\
    collect_children spd (natsorted (gcp p mode)) [] [] = inl (ch, sp) /\
    dict_get out p =
      Some (dict_set "child port speeds" (JStr (py_join "," sp))
              (dict_set "child ports" (JStr (py_join "," ch))
                 (dict_set "Current Breakout Mode" (JStr mode)
                    (dict_update e s)))).
Proof.
  intros Hnd H Hp Hm.
  destruct (breakout_spec gcp spd cur platform hw out Hnd H p Hp) as [Hyes _].
  destruct (Hyes Hm) as [e' [He' Hout]].
  apply breakout_entry_inv in He'
    as (row & mode & e & s & ch & sp & H1 & H2 & H3 & H4 & _ & H6 & H7).
  exists row, mode, e, s, ch, sp. subst e'. repeat split; assumption.
Qed.

Lemma child_fields_of_entry (ch sp : list string) mode (e : dict jvalue) :
  let e' := dict_set "child port speeds" (JStr (py_join "," sp))
              (dict_set "child ports" (JStr (py_join "," ch))
                 (dict_set "Current Breakout Mode" (JStr mode) e)) in
  dict_get e' "child ports" = Some (JStr (py_join "," ch)) /\
  dict_get e' "child port speeds" = Some (JStr (py_join "," sp)).
Proof.
  simpl. rewrite !dict_get_set. split; reflexivity.
Qed.

(** Claim C3: in every entry of the summary for a port found in
    [BREAKOUT_CFG], the printed child ports and child port speeds come from
    two lists of equal length; the child ports listed are exactly the
    declared children (in natural order) that have a speed in the [PORT]
    table, so a child without a speed is left out of both lists. *)
Theorem breakout_child_lists_same_length gcp spd cur platform hw out p :
  NoDup (dict_keys platform) ->
  breakout gcp spd (Some cur) (Some platform) (Some hw) = inl out ->
  In p (dict_keys platform) ->
  dict_mem cur p = true ->
  exists row mode e ch sp,
    dict_get cur p = Some row /\ dict_get row "brkout_mode" = Some mode /\
    dict_get out p = Some e /\
    dict_get e "child ports" = Some (JStr (py_join "," ch)) /\
    dict_get e "child port speeds" = Some (JStr (py_join "," sp)) /\
    ch = filter (has_speed spd) (natsorted (gcp p mode)) /\
    length ch = length sp.
Proof.
  intros Hnd H Hp Hm.
  destruct (breakout_retained_entry gcp spd cur platform hw out p Hnd H Hp Hm)
    as (row & mode & e & s & ch & sp & H1 & H2 & _ & _ & Hc & Hout).
  apply collect_children_spec in Hc as [Hch Hf].
  destruct (child_fields_of_entry ch sp mode (dict_update e s)) as [Hc1 Hc2].
  eexists row, mode, _, ch, sp.
  repeat split; try eassumption.
  eapply Forall2_length, Hf. constructor.
Qed.

Lemma breakout_child_lists_same_length_witness :
  NoDup (dict_keys sample_platform) /\
  exists out,
    breakout sample_child_ports sample_port_speed (Some sample_breakout_cfg)
      (Some sample_platform) (Some sample_hwsku) = inl out /\
    exists row mode e ch sp,
      dict_get sample_breakout_cfg "Ethernet0" = Some row /\
      dict_get row "brkout_mode" = Some mode /\
      dict_get out "Ethernet0" = Some e /\
      dict_get e "child ports" = Some (JStr (py_join "," ch)) /\
      dict_get e "child port speeds" = Some (JStr (py_join "," sp)) /\
      ch = filter (has_speed sample_port_speed)
             (natsorted (sample_child_ports "Ethernet0" mode)) /\
      length ch = length sp.
Proof.
  assert (Hnd : NoDup (dict_keys sample_platform)).
  { simpl. constructor; [simpl; intros [H|[]]; discriminate | constructor; [simpl; tauto | constructor]]. }
  split; [exact Hnd|].
  eexists. split; [reflexivity|].
  apply (breakout_child_lists_same_length sample_child_ports sample_port_speed
           sample_breakout_cfg sample_platform sample_hwsku);
    [exact Hnd | reflexivity | simpl; auto | reflexivity].
Defined.

(** Claim C8: every child port speed printed by the summary is the speed of
    the child port listed at the same position, read with [int] and shown
    as its integer quotient by 1000 followed by "G". *)
Theorem breakout_child_speed_format gcp spd cur platform hw out p :
  NoDup (dict_keys platform) ->
  breakout gcp spd (Some cur) (Some platform) (Some hw) = inl out ->
  In p (dict_keys platform) ->
  dict_mem cur p = true ->
  exists e ch sp,
    dict_get out p = Some e /\
    dict_get e "child ports" = Some (JStr (py_join "," ch)) /\
    dict_get e "child port speeds" = Some (JStr (py_join "," sp)) /\
    Forall2 (speed_shown spd) ch sp.
Proof.
  intros Hnd H Hp Hm.
  destruct (breakout_retained_entry gcp spd cur platform hw out p Hnd H Hp Hm)
    as (row & mode & e & s & ch & sp & _ & _ & _ & _ & Hc & Hout).
  apply collect_children_spec in Hc as [_ Hf].
  destruct (child_fields_of_entry ch sp mode (dict_update e s)) as [Hc1 Hc2].
  eexists _, ch, sp. repeat split; try eassumption. apply Hf. constructor.
Qed.

Lemma breakout_child_speed_format_witness :
  speed_shown sample_port_speed "Ethernet1" "25G" /\
  exists out,
    breakout sample_child_ports sample_port_speed (Some sample_breakout_cfg)
      (Some sample_platform) (Some sample_hwsku) = inl out /\
    exists e ch sp,
      dict_get out "Ethernet0" = Some e /\
      dict_get e "child ports" = Some (JStr (py_join "," ch)) /\
      dict_get e "child port speeds" = Some (JStr (py_join "," sp)) /\
      Forall2 (speed_shown sample_port_speed) ch sp.
Proof.
  split; [exists "25000", 25000; repeat split; reflexivity|].
  eexists. split; [reflexivity|].
  apply (breakout_child_speed_format sample_child_ports sample_port_speed
           sample_breakout_cfg sample_platform sample_hwsku);
    [ simpl; constructor; [simpl; intros [H|[]]; discriminate
                          | constructor; [simpl; tauto | constructor]]
    | reflexivity | simpl; auto | reflexivity].
Defined.

(** Claim C6: for a port found in [BREAKOUT_CFG], the printed entry is the
    platform entry updated with the SKU entry: on a key both have, the SKU
    value wins; a key only the platform entry has keeps its platform value.
    (The three keys the summary writes afterwards, "Current Breakout Mode",
    "child ports" and "child port speeds", are set on top of the merge.) *)
Theorem breakout_sku_overrides_platform gcp spd cur platform hw out p e s :
  NoDup (dict_keys platform) ->
  breakout gcp spd (Some cur) (Some platform) (Some hw) = inl out ->
  dict_mem cur p = true ->
  dict_get platform p = Some e ->
  dict_get hw p = Some s ->
  NoDup (dict_keys s) ->
  exists e',
    dict_get out p = Some e' /\
    forall k, k <> "Current Breakout Mode" -> k <> "child ports" ->
      k <> "child port speeds" ->
      dict_get e' k = match dict_get s k with
                      | Some v => Some v
                      | None => dict_get e k
                      end.
Proof.
  intros Hnd H Hm He Hs Hnds.
  assert (Hp : In p (dict_keys platform)) by (apply dict_get_in; congruence).
  destruct (breakout_retained_entry gcp spd cur platform hw out p Hnd H Hp Hm)
    as (row & mode & e0 & s0 & ch & sp & _ & _ & He0 & Hs0 & _ & Hout).
  rewrite He in He0. inversion He0; subst e0.
  rewrite Hs in Hs0. inversion Hs0; subst s0.
  eexists. split; [exact Hout|].
  intros k Hk1 Hk2 Hk3.
  rewrite !dict_get_set.
  apply String.eqb_neq in Hk1, Hk2, Hk3. rewrite Hk1, Hk2, Hk3.
  apply dict_get_update, Hnds.
Qed.

Lemma breakout_sku_overrides_platform_witness :
  exists e s,
    dict_get sample_platform "Ethernet0" = Some e /\
    dict_get sample_hwsku "Ethernet0" = Some s /\
    exists out,
      breakout sample_child_ports sample_port_speed (Some sample_breakout_cfg)
        (Some sample_platform) (Some sample_hwsku) = inl out /\
      exists e',
        dict_get out "Ethernet0" = Some e' /\
        forall k, k <> "Current Breakout Mode" -> k <> "child ports" ->
          k <> "child port speeds" ->
          dict_get e' k = match dict_get s k with
                          | Some v => Some v
                          | None => dict_get e k
                          end.
Proof.
  do 2 eexists. split; [reflexivity|]. split; [reflexivity|].
  eexists. split; [reflexivity|].
  apply (breakout_sku_overrides_platform sample_child_ports sample_port_speed
           sample_breakout_cfg sample_platform sample_hwsku);
    [ simpl; constructor; [simpl; intros [H|[]]; discriminate
                          | constructor; [simpl; tauto | constructor]]
    | reflexivity | reflexivity | reflexivity | reflexivity
    | simpl; constructor; [simpl; tauto | constructor]].
Defined.

(** Claim C9: when a port is in [BREAKOUT_CFG] but has no entry in the SKU
    file, its iteration of the loop raises [KeyError] (whatever state the
    dictionary is in), and no run of the summary over a platform file
    listing that port completes. *)
Theorem breakout_requires_sku_entry gcp spd cur hw p :
  dict_mem cur p = true ->
  dict_get hw p = None ->
  (forall pd, breakout_step gcp spd cur hw pd p = inr KeyError) /\
  (forall platform out,
     NoDup (dict_keys platform) -> In p (dict_keys platform) ->
     breakout gcp spd (Some cur) (Some platform) (Some hw) <> inl out).
Proof.
  intros Hm Hs. split.
  - intros pd. unfold breakout_step. rewrite Hm. simpl.
    unfold breakout_entry, dict_index.
    destruct (dict_get cur p) as [row|]; [|reflexivity]. simpl.
    destruct (dict_get row "brkout_mode"); [|reflexivity]. simpl.
    destruct (dict_get pd p); [|reflexivity]. simpl.
    rewrite Hs. reflexivity.
  - intros platform out Hnd Hp H.
    destruct (breakout_retained_entry gcp spd cur platform hw out p Hnd H Hp Hm)
      as (row & mode & e & s & ch & sp & _ & _ & _ & Hs0 & _).
    congruence.
Qed.

Lemma breakout_requires_sku_entry_witness :
  let hw := [("Ethernet4", [("default_brkout_mode", JStr "1x100G")])] in
  dict_mem sample_breakout_cfg "Ethernet0" = true /\
  dict_get hw "Ethernet0" = None /\
  breakout sample_child_ports sample_port_speed (Some sample_breakout_cfg)
    (Some sample_platform) (Some hw) = inr KeyError /\
  (forall pd, breakout_step sample_child_ports sample_port_speed
                sample_breakout_cfg hw pd "Ethernet0" = inr KeyError).
Proof.
  intros hw. split; [reflexivity|]. split; [reflexivity|]. split; [reflexivity|].
  apply (breakout_requires_sku_entry sample_child_ports sample_port_speed
           sample_breakout_cfg hw "Ethernet0"); reflexivity.
Defined.

(** ** Claim on [show interfaces breakout current-mode] *)

(** Claim C10: asked for an interface that has no entry in [BREAKOUT_CFG],
    [current-mode] returns normally (exit status 0) with one row pairing
    the interface with "Not Available". *)
Theorem current_mode_unknown_interface group_tbl tbl i :
  dict_mem tbl i = false ->
  currrent_mode (Some group_tbl) (Some tbl) (Some i) = inl [[i; "Not Available"]].
Proof.
  intros H. simpl. rewrite H. reflexivity.
Qed.

Lemma current_mode_unknown_interface_witness :
  dict_mem sample_breakout_cfg "Ethernet8" = false /\
  currrent_mode (Some sample_breakout_cfg) (Some sample_breakout_cfg)
    (Some "Ethernet8") = inl [["Ethernet8"; "Not Available"]].
Proof.
  split; [reflexivity|].
  apply current_mode_unknown_interface. reflexivity.
Defined.

(** ** Claims on alias conversion and [show interfaces mpls] *)

Lemma alias_to_name_no_match ports a :
  (forall name attrs, In (name, attrs) ports -> port_alias name attrs <> a) ->
  alias_to_name ports a = a.
Proof.
  induction ports as [|[name attrs] ports IH]; intros H; simpl; [reflexivity|].
  destruct (String.eqb (port_alias name attrs) a) eqn:E.
  - apply String.eqb_eq in E. exfalso. apply (H name attrs); [left|]; auto.
  - apply IH. intros n at' Hin. apply (H n at'). right. exact Hin.
Qed.

(** Claim C4: in alias mode, a string that is the alias of no port makes
    [try_convert_interfacename_from_alias] fail the command with a usage
    error; it is never handed back as an interface name. *)
Theorem alias_mode_unknown_alias_fails ports a :
  (forall name attrs, In (name, attrs) ports -> port_alias name attrs <> a) ->
  try_convert_interfacename_from_alias AliasMode ports a
  = raise (UsageError ("cannot find interface name for alias " ++ a)).
Proof.
  intros H. simpl. rewrite (alias_to_name_no_match ports a H), String.eqb_refl.
  reflexivity.
Qed.

Lemma alias_mode_unknown_alias_fails_witness :
  try_convert_interfacename_from_alias AliasMode sample_ports "etp9"
  = raise (UsageError "cannot find interface name for alias etp9").
Proof.
  apply (alias_mode_unknown_alias_fails sample_ports "etp9").
  intros name attrs Hin. simpl in Hin.
  destruct Hin as [Hin|[Hin|[]]]; inversion Hin; subst; discriminate.
Defined.

(** Claim C5 (as amended): on a single-ASIC device, a display option other
    than "frontend", "all" or none makes [mpls] print
    "Error: Invalid display option command for single asic" and return
    before connecting to any namespace, without a table; the command exits
    with status 0, not with a usage error. *)
Theorem mpls_single_asic_bad_display d interfacename namespace x :
  is_multi_asic d = false ->
  x <> "frontend" -> x <> "all" ->
  mpls d interfacename namespace (Some x)
  = ([EPrint "Error: Invalid display option command for single asic"], ret tt) /\
  exit_status (snd (mpls d interfacename namespace (Some x))) = 0.
Proof.
  intros Hm H1 H2.
  assert (E : mpls d interfacename namespace (Some x)
              = ([EPrint "Error: Invalid display option command for single asic"], ret tt)).
  { unfold mpls. rewrite Hm. simpl.
    apply String.eqb_neq in H1, H2. rewrite H1, H2. reflexivity. }
  rewrite E. split; reflexivity.
Qed.

Lemma mpls_single_asic_bad_display_witness :
  let d := sample_device false Default sample_ports in
  mpls d None None (Some "internal")
  = ([EPrint "Error: Invalid display option command for single asic"], ret tt) /\
  exit_status (snd (mpls d None None (Some "internal"))) = 0.
Proof.
  apply mpls_single_asic_bad_display; [reflexivity | discriminate | discriminate].
Defined.

(** Claim C5, counterexample: an explicit display "internal" on a
    single-ASIC device ends with exit status 0, not a non-zero usage
    error. *)
Lemma mpls_single_asic_bad_display_exits_zero :
  let r := mpls (sample_device false Default sample_ports) None None
             (Some "internal") in
  snd r = inl tt /\ exit_status (snd r) = 0 /\
  fst r = [EPrint "Error: Invalid display option command for single asic"].
Proof.
  repeat split; reflexivity.
Qed.

Lemma ns_loop_trace d display nss n data found tr r :
  ns_loop d display nss n data found = (tr, r) ->
  Forall (fun ev => exists ns, ev = EConnect ns) tr.
Proof.
  revert n data found tr r.
  induction nss as [|ns nss IH]; intros n data found tr r H; simpl in H.
  - inversion H. constructor.
  - destruct (match n with
              | Some n0 => let* n' := try_convert_interfacename_from_alias
                                        (naming d) (ports d) n0 in ret (Some n')
              | None => ret None
              end) as [n'|e]; [|inversion H; repeat constructor; eauto].
    destruct (intf_keys_loop d ns display n' (db_for_ns d ns)
                (intf_keys (db_for_ns d ns)) data found) as [[data' found']|e];
      [|inversion H; repeat constructor; eauto].
    destruct (ns_loop d display nss n' data' found') as [tr' r'] eqn:E.
    inversion H; subst. constructor; [eauto | eapply IH; exact E].
Qed.

Lemma mpls_body_names d data :
  map (hd "") (mpls_body d data) = map (display_name d) (natsorted (dict_keys data)).
Proof.
  unfold mpls_body. rewrite map_map. reflexivity.
Qed.

(** Claim C7, counterexample: in alias mode, with Ethernet0 aliased Eth1/2
    and Ethernet4 aliased Eth1/1, the rows come as Eth1/2 then Eth1/1,
    while the natural ascending order of the aliases is Eth1/1, Eth1/2. *)
Lemma mpls_alias_rows_not_alias_sorted :
  mpls (sample_device true AliasMode sample_ports_crossed) None None None
  = ([EConnect "asic0"; EConnect "asic1";
      ETable [["Eth1/2"; "enable"]; ["Eth1/1"; "disable"]]], ret tt) /\
  natsorted ["Eth1/2"; "Eth1/1"] = ["Eth1/1"; "Eth1/2"].
Proof.
  split; reflexivity.
Qed.

(** Claim C2, the failing run: in alias mode, on two namespaces, asking
    for the alias etp1 of Ethernet0, which lives in asic1 only. The first
    iteration turns etp1 into Ethernet0; the second converts Ethernet0 once
    more as if it were an alias, finds no port with that alias and fails the
    command, although the interface exists. In default mode the same query
    by name finds it in asic1 and prints its row. *)
Theorem mpls_alias_mode_second_namespace_fails :
  mpls (sample_device true AliasMode sample_ports) (Some "etp1") None None
  = ([EConnect "asic0"; EConnect "asic1"],
     raise (UsageError "cannot find interface name for alias Ethernet0")) /\
  exit_status (snd (mpls (sample_device true AliasMode sample_ports)
                      (Some "etp1") None None)) = 2 /\
  mpls (sample_device true Default sample_ports) (Some "Ethernet0") None None
  = ([EConnect "asic0"; EConnect "asic1"; ETable [["Ethernet0"; "enable"]]],
     ret tt).
Proof.
  repeat split; reflexivity.
Qed.

(** ** The natural order is a total preorder *)

Lemma ascii_compare_lt_trans a b c :
  Ascii.compare a b = Lt -> Ascii.compare b c = Lt -> Ascii.compare a c = Lt.
Proof.
  unfold Ascii.compare. rewrite !N.compare_lt_iff. lia.
Qed.

Lemma ascii_compare_refl a : Ascii.compare a a = Eq.
Proof. unfold Ascii.compare. apply N.compare_refl. Qed.

Lemma string_compare_lt_trans s1 s2 s3 :
  String.compare s1 s2 = Lt -> String.compare s2 s3 = Lt -> String.compare s1 s3 = Lt.
Proof.
  revert s2 s3; induction s1 as [|a s1 IH]; intros [|b s2] [|c s3]; simpl;
    try discriminate; try reflexivity.
  destruct (Ascii.compare a b) eqn:Eab; try discriminate;
  destruct (Ascii.compare b c) eqn:Ebc; try discriminate; intros H1 H2.
  - apply Ascii.compare_eq_iff in Eab, Ebc. subst.
    rewrite ascii_compare_refl. eauto.
  - apply Ascii.compare_eq_iff in Eab. subst. rewrite Ebc. reflexivity.
  - apply Ascii.compare_eq_iff in Ebc. subst. rewrite Eab. reflexivity.
  - rewrite (ascii_compare_lt_trans a b c Eab Ebc). reflexivity.
Qed.

Lemma chunk_compare_eq x y : chunk_compare x y = Eq -> x = y.
Proof.
  destruct x, y; simpl; try discriminate; intros H.
  - apply String.compare_eq_iff in H. subst. reflexivity.
  - apply Z.compare_eq in H. subst. reflexivity.
Qed.

Lemma chunk_compare_refl x : chunk_compare x x = Eq.
Proof.
  destruct x; simpl.
  - destruct (String.compare s s) eqn:E; auto;
      pose proof (String.compare_antisym s s) as A; rewrite E in A; discriminate.
  - apply Z.compare_refl.
Qed.

Lemma chunk_compare_lt_trans x y z :
  chunk_compare x y = Lt -> chunk_compare y z = Lt -> chunk_compare x z = Lt.
Proof.
  destruct x, y, z; simpl; try discriminate; try reflexivity.
  - apply string_compare_lt_trans.
  - rewrite !Z.compare_lt_iff. lia.
Qed.

Lemma key_compare_eq a b : key_compare a b = Eq -> a = b.
Proof.
  revert b; induction a as [|x a IH]; intros [|y b]; simpl; try discriminate; auto.
  destruct (chunk_compare x y) eqn:E; try discriminate.
  intros H. apply chunk_compare_eq in E. f_equal; auto.
Qed.

Lemma key_compare_lt_trans a b c :
  key_compare a b = Lt -> key_compare b c = Lt -> key_compare a c = Lt.
Proof.
  revert b c; induction a as [|x a IH]; intros [|y b] [|z c]; simpl;
    try discriminate; try reflexivity.
  destruct (chunk_compare x y) eqn:Exy; try discriminate;
  destruct (chunk_compare y z) eqn:Eyz; try discriminate; intros H1 H2.
  - apply chunk_compare_eq in Exy, Eyz. subst. rewrite chunk_compare_refl. eauto.
  - apply chunk_compare_eq in Exy. subst. rewrite Eyz. reflexivity.
  - apply chunk_compare_eq in Eyz. subst. rewrite Exy. reflexivity.
  - rewrite (chunk_compare_lt_trans x y z Exy Eyz). reflexivity.
Qed.

Lemma nat_le_trans a b c : nat_le a b = true -> nat_le b c = true -> nat_le a c = true.
Proof.
  unfold nat_le.
  destruct (key_compare (natsort_key a) (natsort_key b)) eqn:Eab; try discriminate;
  destruct (key_compare (natsort_key b) (natsort_key c)) eqn:Ebc; try discriminate;
  intros _ _.
  - apply key_compare_eq in Eab. rewrite Eab, Ebc. reflexivity.
  - apply key_compare_eq in Eab. rewrite Eab, Ebc. reflexivity.
  - apply key_compare_eq in Ebc. rewrite <- Ebc, Eab. reflexivity.
  - rewrite (key_compare_lt_trans _ _ _ Eab Ebc). reflexivity.
Qed.

Lemma filter_sorted (f : string -> bool) l :
  Sorted nat_le_rel l -> Sorted nat_le_rel (filter f l).
Proof.
  intros H. apply StronglySorted_Sorted.
  apply Sorted_StronglySorted in H; [| intros x y z; apply nat_le_trans].
  induction H as [|x l Hs IH Hall]; simpl; [constructor|].
  destruct (f x); [|exact IH].
  constructor; [exact IH|].
  apply Forall_forall. intros y Hy. apply filter_In in Hy as [Hy _].
  rewrite Forall_forall in Hall. auto.
Qed.

(** ** Loops that may raise *)

Lemma res_map_Forall2 {A B} (f : A -> res B) l out :
  res_map f l = inl out -> Forall2 (fun x y => f x = inl y) l out.
Proof.
  revert out; induction l as [|x l IH]; intros out H; simpl in H.
  - inversion H. constructor.
  - unfold bind in H. destruct (f x) as [y|e] eqn:Ef; [|discriminate].
    destruct (res_map f l) as [ys|e] eqn:Er; [|discriminate].
    inversion H; subst. constructor; auto.
Qed.

Lemma res_map_err {A B} (f : A -> res B) l e :
  res_map f l = inr e -> exists x, In x l /\ f x = inr e.
Proof.
  induction l as [|x l IH]; intros H; simpl in H; [discriminate|].
  unfold bind in H. destruct (f x) as [y|e'] eqn:Ef.
  - destruct (res_map f l) as [ys|e'] eqn:Er; [discriminate|].
    inversion H; subst. destruct IH as [x' [Hx' Hf]]; [reflexivity|].
    exists x'. split; [right|]; auto.
  - inversion H; subst. exists x. split; [left|]; auto.
Qed.

Lemma res_map_fails {A B} (f : A -> res B) l x e :
  In x l -> f x = inr e -> exists e', res_map f l = inr e' /\ exists x', In x' l /\ f x' = inr e'.
Proof.
  intros Hx Hf. destruct (res_map f l) as [out|e'] eqn:Er.
  - exfalso. apply res_map_Forall2 in Er.
    induction Er as [|x0 y0 l0 out0 Hxy _ IH]; [destruct Hx|].
    destruct Hx as [Hx|Hx]; [subst; congruence | auto].
  - exists e'. split; [reflexivity|]. apply res_map_err, Er.
Qed.

Lemma in_natsorted l p : In p (natsorted l) <-> In p l.
Proof.
  split; intros H.
  - eapply Permutation_in; [apply natsorted_perm | exact H].
  - eapply Permutation_in; [apply Permutation_sym, natsorted_perm | exact H].
Qed.

(** ** [show interfaces alias] *)

Lemma alias_to_name_found ports a :
  alias_to_name ports a <> a ->
  exists na, In (alias_to_name ports a, na) ports /\
             port_alias (alias_to_name ports a) na = a.
Proof.
  induction ports as [|[name attrs] ports IH]; simpl; [congruence|].
  destruct (String.eqb (port_alias name attrs) a) eqn:E.
  - intros _. apply String.eqb_eq in E. exists attrs. auto.
  - intros H. destruct (IH H) as [na [Hin Ha]]. exists na. auto.
Qed.

(** Extra: without the [frontend] filter, [alias] with no name lists every
    port of the port table, once, in the natural order of the names, each
    with its [alias] attribute or, lacking one, its own name. *)
Theorem alias_listing_all_ports role mode conv_ports port_dict display :
  option_str_eqb display "frontend" = false ->
  exists body,
    show_alias role mode conv_ports port_dict None display = inl body /\
    map (hd "") body = natsorted (dict_keys port_dict) /\
    Forall (fun row => exists attrs, dict_get port_dict (hd "" row) = Some attrs /\
                                      row = alias_row (hd "" row) attrs) body.
Proof.
  intros Hd. unfold show_alias. eexists. split; [reflexivity|].
  assert (Hl : forall p, In p (natsorted (dict_keys port_dict)) ->
                         In p (dict_keys port_dict)) by (intros p; apply in_natsorted).
  revert Hl. generalize (natsorted (dict_keys port_dict)) as l.
  induction l as [|p l IH]; intros Hl; simpl; [split; constructor|].
  destruct (dict_get port_dict p) as [attrs|] eqn:E.
  - destruct IH as [IH1 IH2]; [intros q Hq; apply Hl; right; exact Hq|].
    rewrite Hd in *. simpl.
    split; [f_equal; exact IH1|]. constructor; [|exact IH2].
    exists attrs. simpl. auto.
  - exfalso. apply (proj2 (dict_get_in port_dict p)); [|exact E]. apply Hl. left. reflexivity.
Qed.

Lemma alias_listing_all_ports_witness :
  option_str_eqb None "frontend" = false /\
  exists body,
    show_alias (fun _ => false) Default sample_ports sample_ports None None = inl body /\
    map (hd "") body = natsorted (dict_keys sample_ports) /\
    Forall (fun row => exists attrs, dict_get sample_ports (hd "" row) = Some attrs /\
                                      row = alias_row (hd "" row) attrs) body.
Proof.
  split; [reflexivity|].
  apply (alias_listing_all_ports (fun _ => false) Default sample_ports sample_ports None).
  reflexivity.
Defined.

(** Extra: with [--display frontend], [alias] with no name lists, in the
    natural order of the names, exactly the ports of the table that have no
    [role] or whose [role] fails the identity test
    [is multi_asic.INTERNAL_PORT] (the parameter [role]); a role string read
    from the database is a new object, so it fails that test even when it
    equals the constant, and its port is listed. Each port is shown with
    its alias (or its own name). *)
Theorem alias_frontend_hides_internal role mode conv_ports port_dict :
  exists body,
    show_alias role mode conv_ports port_dict None (Some "frontend") = inl body /\
    Sorted nat_le_rel (map (hd "") body) /\
    (forall p, In p (map (hd "") body) <->
       exists attrs, dict_get port_dict p = Some attrs /\
         match dict_get attrs "role" with Some r => role r | None => false end = false) /\
    Forall (fun row => exists attrs, dict_get port_dict (hd "" row) = Some attrs /\
                                      row = alias_row (hd "" row) attrs) body.
Proof.
  unfold show_alias. eexists. split; [reflexivity|].
  set (keep := fun p => match dict_get port_dict p with
                        | Some attrs => negb match dict_get attrs "role" with
                                             | Some r => role r | None => false end
                        | None => false end).
  assert (Hl : forall p, In p (natsorted (dict_keys port_dict)) ->
                         In p (dict_keys port_dict)) by (intros p; apply in_natsorted).
  assert (Hmap : forall l, (forall p, In p l -> In p (dict_keys port_dict)) ->
    map (hd "") (flat_map (fun port_name =>
             match dict_get port_dict port_name with
             | Some attrs =>
                 if option_str_eqb (Some "frontend") "frontend" &&
                    match dict_get attrs "role" with
                    | Some r => role r
                    | None => false
                    end
                 then []
                 else [alias_row port_name attrs]
             | None => []
             end) l) = filter keep l /\
    Forall (fun row => exists attrs, dict_get port_dict (hd "" row) = Some attrs /\
                                      row = alias_row (hd "" row) attrs)
      (flat_map (fun port_name =>
             match dict_get port_dict port_name with
             | Some attrs =>
                 if option_str_eqb (Some "frontend") "frontend" &&
                    match dict_get attrs "role" with
                    | Some r => role r
                    | None => false
                    end
                 then []
                 else [alias_row port_name attrs]
             | None => []
             end) l)).
  { induction l as [|p l IH]; intros Hin; simpl; [split; constructor|].
    destruct IH as [IH1 IH2]; [intros q Hq; apply Hin; right; exact Hq|].
    unfold keep at 1. destruct (dict_get port_dict p) as [attrs|] eqn:E.
    - simpl. destruct (match dict_get attrs "role" with
                       | Some r => role r | None => false end); simpl.
      + split; assumption.
      + split; [f_equal; exact IH1|]. constructor; [|exact IH2].
        exists attrs. simpl. auto.
    - split; assumption. }
  destruct (Hmap _ Hl) as [H1 H2]. rewrite H1. split; [|split; [|exact H2]].
  - apply filter_sorted, natsorted_sorted.
  - intros p. rewrite filter_In, in_natsorted. unfold keep. split.
    + intros [_ Hk]. destruct (dict_get port_dict p) as [attrs|]; [|discriminate].
      exists attrs. split; [reflexivity|]. destruct (match dict_get attrs "role" with
                       | Some r => role r | None => false end); auto.
    + intros [attrs [Ha Hr]]. rewrite Ha, Hr. split; [|reflexivity].
      apply dict_get_in. congruence.
Qed.

(** Extra: in alias naming mode, [alias ALIAS] that succeeds prints a single
    row, for a port [n] other than the given alias whose alias (in the
    converter's table) is the given one, with [n]'s entry of the port table.
    The converter [alias_to_name] is modelled from the spec. *)
Theorem alias_lookup_by_alias role conv_ports port_dict a display body :
  show_alias role AliasMode conv_ports port_dict (Some a) display = inl body ->
  exists n na attrs,
    n <> a /\ In (n, na) conv_ports /\ port_alias n na = a /\
    dict_get port_dict n = Some attrs /\ body = [alias_row n attrs].
Proof.
  unfold show_alias, try_convert_interfacename_from_alias, bind, ret, raise.
  destruct (String.eqb (alias_to_name conv_ports a) a) eqn:E; [discriminate|].
  apply String.eqb_neq in E.
  destruct (dict_get port_dict (alias_to_name conv_ports a)) as [attrs|] eqn:G;
    [|discriminate].
  intros H. inversion H; subst body.
  destruct (alias_to_name_found conv_ports a E) as [na [Hin Ha]].
  exists (alias_to_name conv_ports a), na, attrs. auto.
Qed.

Lemma alias_lookup_by_alias_witness :
  show_alias (fun _ => false) AliasMode sample_ports sample_ports (Some "etp2") None
    = inl [["Ethernet4"; "etp2"]] /\
  exists n na attrs,
    n <> "etp2" /\ In (n, na) sample_ports /\ port_alias n na = "etp2" /\
    dict_get sample_ports n = Some attrs /\ [["Ethernet4"; "etp2"]] = [alias_row n attrs].
Proof.
  assert (E : show_alias (fun _ => false) AliasMode sample_ports sample_ports
                (Some "etp2") None = inl [["Ethernet4"; "etp2"]]) by reflexivity.
  split; [exact E|].
  exact (alias_lookup_by_alias (fun _ => false) sample_ports sample_ports "etp2" None _ E).
Defined.

(** ** [show interfaces breakout current-mode] *)

(** Extra: the listing of [breakout current-mode] has one row per entry of
    [BREAKOUT_CFG], in the natural order of the port names, each row being
    the port and the [brkout_mode] field of its entry. *)
Theorem current_mode_listing group_tbl tbl body :
  currrent_mode (Some group_tbl) (Some tbl) None = inl body ->
  map (hd "") body = natsorted (dict_keys tbl) /\
  Forall (fun row => exists e m, dict_get tbl (hd "" row) = Some e /\
            dict_get e "brkout_mode" = Some m /\ row = [hd "" row; m]) body.
Proof.
  unfold currrent_mode. intros H. apply res_map_Forall2 in H.
  induction H as [|name row l out Hrow _ [IH1 IH2]]; simpl; [split; constructor|].
  unfold dict_index, bind, ret, raise in Hrow. cbv beta in Hrow.
  destruct (dict_get tbl name) as [e|] eqn:E1; cbv beta iota in Hrow; [|discriminate].
  destruct (dict_get e "brkout_mode") as [m|] eqn:E2; cbv beta iota in Hrow; [|discriminate].
  inversion Hrow; subst row. simpl. split; [f_equal; exact IH1|].
  constructor; [|exact IH2]. exists e, m. auto.
Qed.

Lemma current_mode_listing_witness :
  currrent_mode (Some sample_breakout_cfg) (Some sample_breakout_cfg) None
    = inl [["Ethernet0"; "4x25G"]] /\
  map (hd "") [["Ethernet0"; "4x25G"]] = natsorted (dict_keys sample_breakout_cfg) /\
  Forall (fun row => exists e m, dict_get sample_breakout_cfg (hd "" row) = Some e /\
            dict_get e "brkout_mode" = Some m /\ row = [hd "" row; m])
    [["Ethernet0"; "4x25G"]].
Proof.
  assert (E : currrent_mode (Some sample_breakout_cfg) (Some sample_breakout_cfg) None
              = inl [["Ethernet0"; "4x25G"]]) by reflexivity.
  split; [exact E|].
  exact (current_mode_listing sample_breakout_cfg sample_breakout_cfg _ E).
Defined.

(** Extra: an entry of [BREAKOUT_CFG] without a [brkout_mode] field makes
    [breakout current-mode] fail with [KeyError], both when listing every
    port and when asked for that port. *)
Theorem current_mode_missing_field_fails group_tbl tbl n e :
  dict_get tbl n = Some e -> dict_get e "brkout_mode" = None ->
  currrent_mode (Some group_tbl) (Some tbl) None = raise KeyError /\
  currrent_mode (Some group_tbl) (Some tbl) (Some n) = raise KeyError.
Proof.
  intros E1 E2. split.
  - unfold currrent_mode.
    set (f := fun name : string =>
                let* row := dict_index tbl name in
                let* m := dict_index row "brkout_mode" in ret [name; m]).
    assert (Hn : In n (natsorted (dict_keys tbl))).
    { apply in_natsorted, dict_get_in. congruence. }
    assert (Hf : f n = inr KeyError).
    { unfold f, dict_index, bind, ret, raise. rewrite E1. cbv beta iota.
      rewrite E2. reflexivity. }
    destruct (res_map_fails f _ n KeyError Hn Hf) as [e' [Hr [x [_ Hx]]]].
    rewrite Hr. unfold raise. unfold f, dict_index, bind, ret, raise in Hx.
    cbv beta in Hx.
    destruct (dict_get tbl x) as [row|]; cbv beta iota in Hx; [|congruence].
    destruct (dict_get row "brkout_mode"); cbv beta iota in Hx; congruence.
  - unfold currrent_mode, dict_mem, dict_index, bind, ret, raise. rewrite E1.
    cbv beta iota. rewrite E2. reflexivity.
Qed.

Lemma current_mode_missing_field_fails_witness :
  dict_get [("Ethernet0", [("lanes", "1,2,3,4")])] "Ethernet0"
    = Some [("lanes", "1,2,3,4")] /\
  dict_get [("lanes", "1,2,3,4")] "brkout_mode" = None /\
  currrent_mode (Some []) (Some [("Ethernet0", [("lanes", "1,2,3,4")])]) None
    = raise KeyError /\
  currrent_mode (Some []) (Some [("Ethernet0", [("lanes", "1,2,3,4")])])
    (Some "Ethernet0") = raise KeyError.
Proof.
  split; [reflexivity|]. split; [reflexivity|].
  apply (current_mode_missing_field_fails [] _ "Ethernet0" [("lanes", "1,2,3,4")]);
    reflexivity.
Defined.

(** ** More of [show interfaces breakout] *)

Lemma res_map_pair_keys (pd : capability) l out :
  res_map (fun k => let* v := dict_index pd k in ret (k, v)) l = inl out ->
  dict_keys out = l.
Proof.
  intros H. apply res_map_Forall2 in H.
  induction H as [|k y l out Hy _ IH]; [reflexivity|].
  unfold dict_index, bind, ret, raise in Hy.
  destruct (dict_get pd k); inversion Hy. simpl. congruence.
Qed.

(** Extra: the ports of the breakout summary are exactly the parent ports
    of the platform file, in their natural order. *)
Theorem breakout_keys_natsorted gcp spd cur platform hw out :
  NoDup (dict_keys platform) ->
  breakout gcp spd (Some cur) (Some platform) (Some hw) = inl out ->
  dict_keys out = natsorted (dict_keys platform).
Proof.
  intros Hnd H. revert H. unfold breakout.
  destruct platform as [|pe pl]; [discriminate|].
  destruct hw as [|he hl]; [discriminate|]. intros H.
  destruct (breakout_loop gcp spd cur (he :: hl) (dict_keys (pe :: pl)) (pe :: pl))
    as [pd|x] eqn:El; cbv beta iota in H; simpl in H; [|discriminate].
  apply breakout_loop_spec in El as [Hkeys _]; [| exact Hnd | auto].
  rewrite <- Hkeys. eapply res_map_pair_keys. exact H.
Qed.

Lemma sample_platform_nodup : NoDup (dict_keys sample_platform).
Proof.
  simpl. constructor; [simpl; intros [H|[]]; discriminate | constructor; [simpl; tauto | constructor]].
Qed.

Lemma breakout_keys_natsorted_witness :
  exists out,
    breakout sample_child_ports sample_port_speed (Some sample_breakout_cfg)
      (Some sample_platform) (Some sample_hwsku) = inl out /\
    dict_keys out = natsorted (dict_keys sample_platform).
Proof.
  eexists. split; [reflexivity|].
  apply (breakout_keys_natsorted sample_child_ports sample_port_speed
           sample_breakout_cfg sample_platform sample_hwsku);
    [exact sample_platform_nodup | reflexivity].
Defined.

(** Extra: the entry printed for a parent port found in [BREAKOUT_CFG]
    carries its [brkout_mode] as ["Current Breakout Mode"]. *)
Theorem breakout_current_mode_stamped gcp spd cur platform hw out p row m :
  NoDup (dict_keys platform) ->
  breakout gcp spd (Some cur) (Some platform) (Some hw) = inl out ->
  In p (dict_keys platform) ->
  dict_get cur p = Some row -> dict_get row "brkout_mode" = Some m ->
  exists e, dict_get out p = Some e /\
            dict_get e "Current Breakout Mode" = Some (JStr m).
Proof.
  intros Hnd H Hp E1 E2.
  assert (Hm : dict_mem cur p = true) by (unfold dict_mem; rewrite E1; reflexivity).
  destruct (breakout_retained_entry gcp spd cur platform hw out p Hnd H Hp Hm)
    as (row' & mode & e & s & ch & sp & F1 & F2 & _ & _ & _ & Hout).
  rewrite E1 in F1. inversion F1; subst row'. rewrite E2 in F2. inversion F2; subst mode.
  eexists. split; [exact Hout|]. rewrite !dict_get_set. reflexivity.
Qed.

Lemma breakout_current_mode_stamped_witness :
  exists out e,
    breakout sample_child_ports sample_port_speed (Some sample_breakout_cfg)
      (Some sample_platform) (Some sample_hwsku) = inl out /\
    dict_get out "Ethernet0" = Some e /\
    dict_get e "Current Breakout Mode" = Some (JStr "4x25G").
Proof.
  assert (E : exists out, breakout sample_child_ports sample_port_speed
                (Some sample_breakout_cfg) (Some sample_platform) (Some sample_hwsku)
                = inl out) by (eexists; reflexivity).
  destruct E as [out E].
  destruct (breakout_current_mode_stamped sample_child_ports sample_port_speed
              sample_breakout_cfg sample_platform sample_hwsku out "Ethernet0"
              [("brkout_mode", "4x25G")] "4x25G" sample_platform_nodup E)
    as [e [H1 H2]]; [simpl; auto | reflexivity | reflexivity |].
  exists out, e. auto.
Defined.

Lemma collect_children_speeds_int spd cs ch0 sp0 r :
  collect_children spd cs ch0 sp0 = inl r ->
  forall c raw, In c cs -> spd c = Some raw -> py_int raw <> None.
Proof.
  revert ch0 sp0. induction cs as [|c0 cs IH]; intros ch0 sp0 H c raw Hc Hs;
    [destruct Hc|]. simpl in H.
  destruct Hc as [Hc|Hc].
  - subst c0. rewrite Hs in H. unfold speed_str, bind in H.
    destruct (py_int raw); [discriminate | discriminate].
  - destruct (spd c0) as [raw0|].
    + unfold bind in H. destruct (speed_str raw0); [|discriminate]. eauto.
    + eauto.
Qed.

(** Extra: if a declared child of a parent port found in [BREAKOUT_CFG]
    has a speed in the [PORT] table that is not an integer, the breakout
    summary is never printed ([int(speed)] raises). *)
Theorem breakout_bad_child_speed_fails gcp spd cur platform hw p row m c raw :
  NoDup (dict_keys platform) -> In p (dict_keys platform) ->
  dict_get cur p = Some row -> dict_get row "brkout_mode" = Some m ->
  In c (gcp p m) -> spd c = Some raw -> py_int raw = None ->
  forall out, breakout gcp spd (Some cur) (Some platform) (Some hw) <> inl out.
Proof.
  intros Hnd Hp E1 E2 Hc Hs Hi out H.
  assert (Hm : dict_mem cur p = true) by (unfold dict_mem; rewrite E1; reflexivity).
  destruct (breakout_retained_entry gcp spd cur platform hw out p Hnd H Hp Hm)
    as (row' & mode & e & s & ch & sp & F1 & F2 & _ & _ & Hcc & _).
  rewrite E1 in F1. inversion F1; subst row'. rewrite E2 in F2. inversion F2; subst mode.
  eapply collect_children_speeds_int; [exact Hcc | | exact Hs | exact Hi].
  apply in_natsorted, Hc.
Qed.

Lemma breakout_bad_child_speed_fails_witness :
  let spd := fun c => if String.eqb c "Ethernet2" then Some "25G" else sample_port_speed c in
  breakout sample_child_ports spd (Some sample_breakout_cfg) (Some sample_platform)
    (Some sample_hwsku) = raise ValueError /\
  forall out, breakout sample_child_ports spd (Some sample_breakout_cfg)
                (Some sample_platform) (Some sample_hwsku) <> inl out.
Proof.
  intros spd. split; [reflexivity|].
  apply (breakout_bad_child_speed_fails sample_child_ports spd sample_breakout_cfg
           sample_platform sample_hwsku "Ethernet0" [("brkout_mode", "4x25G")] "4x25G"
           "Ethernet2" "25G" sample_platform_nodup); try reflexivity.
  - simpl. auto.
  - simpl. tauto.
Defined.

(** Extra: a parent port of the platform file found in [BREAKOUT_CFG] whose
    entry has no [brkout_mode], or for which [get_child_ports] finds no
    child port, makes the whole breakout summary fail. *)
Theorem breakout_no_children_fails gcp spd cur platform hw p row :
  NoDup (dict_keys platform) -> In p (dict_keys platform) ->
  dict_get cur p = Some row ->
  (dict_get row "brkout_mode" = None \/
   exists m, dict_get row "brkout_mode" = Some m /\ gcp p m = []) ->
  forall out, breakout gcp spd (Some cur) (Some platform) (Some hw) <> inl out.
Proof.
  intros Hnd Hp E1 Hcase out H.
  assert (Hm : dict_mem cur p = true) by (unfold dict_mem; rewrite E1; reflexivity).
  destruct (breakout_spec gcp spd cur platform hw out Hnd H p Hp) as [Hyes _].
  destruct (Hyes Hm) as [e' [He' _]].
  apply breakout_entry_inv in He'
    as (row' & mode & e & s & ch & sp & F1 & F2 & _ & _ & Hne & _).
  rewrite E1 in F1. inversion F1; subst row'.
  destruct Hcase as [Hn | [m [Hm' Hg]]]; [congruence|].
  rewrite Hm' in F2. inversion F2; subst mode. contradiction.
Qed.

Lemma breakout_no_children_fails_witness :
  let gcp := fun (port_name mode : string) => @nil string in
  breakout gcp sample_port_speed (Some sample_breakout_cfg) (Some sample_platform)
    (Some sample_hwsku) = raise Abort /\
  forall out, breakout gcp sample_port_speed (Some sample_breakout_cfg)
                (Some sample_platform) (Some sample_hwsku) <> inl out.
Proof.
  intros gcp. split; [reflexivity|].
  apply (breakout_no_children_fails gcp sample_port_speed sample_breakout_cfg
           sample_platform sample_hwsku "Ethernet0" [("brkout_mode", "4x25G")]
           sample_platform_nodup).
  - simpl. auto.
  - reflexivity.
  - right. exists "4x25G". split; reflexivity.
Defined.

(** ** More of [show interfaces mpls] *)

Lemma dict_keys_set_Forall {V} (P : string -> Prop) (d : dict V) k v :
  Forall P (dict_keys d) -> P k -> Forall P (dict_keys (dict_set k v d)).
Proof.
  induction d as [|[k0 v0] d IH]; simpl; intros Hd Hk; [constructor; auto|].
  inversion Hd; subst.
  destruct (String.eqb k k0); simpl; constructor; auto.
Qed.

(** An induction principle for the loop over the keys of one namespace:
    [Q] holds of [intfs_data] and [intf_found] when it survives recording
    an interface that is not hidden, and the setting of [intf_found] for a
    hidden interface that was asked for. *)
Lemma intf_keys_loop_ind (Q : dict string -> bool -> Prop) d ns display n db keys
    data found data' found' :
  (forall data found ifname v, Q data found ->
     intf_hidden d ns display ifname = false ->
     match n with Some x => x = ifname | None => True end ->
     Q (dict_set ifname v data) (match n with Some _ => true | None => found end)) ->
  (forall data found ifname, Q data found ->
     intf_hidden d ns display ifname = true -> n = Some ifname -> Q data true) ->
  Q data found ->
  intf_keys_loop d ns display n db keys data found = inl (data', found') ->
  Q data' found'.
Proof.
  intros Hrec Hhid. revert data found.
  induction keys as [|key keys IH]; intros data found HQ H; cbn -[nth_error py_split] in H.
  - inversion H; subst. exact HQ.
  - destruct (nth_error (py_split ":"%char key) 1) as [ifname|];
      [|unfold raise in H; discriminate].
    destruct (negb (Nat.eqb (length (py_split ":"%char key)) 2)); [eapply IH; eauto|].
    destruct n as [x|].
    + destruct (String.eqb x ifname) eqn:Ex; [|eapply IH; eauto].
      apply String.eqb_eq in Ex. subst x.
      destruct (intf_hidden d ns display ifname) eqn:Eh; eapply IH; try exact H.
      * exact (Hhid data found ifname HQ Eh eq_refl).
      * exact (Hrec data found ifname _ HQ Eh eq_refl).
    + destruct (intf_hidden d ns display ifname) eqn:Eh; eapply IH; try exact H.
      * exact HQ.
      * exact (Hrec data found ifname _ HQ Eh I).
Qed.


(** The namespaces loop when the interface name stays as it is (no name,
    or a name the conversion keeps, as in default mode). *)
Lemma ns_loop_ind (Q : dict string -> bool -> Prop) d display nss n data found
    tr n' data' found' :
  match n with
  | Some x => try_convert_interfacename_from_alias (naming d) (ports d) x = ret x
  | None => True
  end ->
  (forall ns data found data' found', Q data found ->
     intf_keys_loop d ns display n (db_for_ns d ns) (intf_keys (db_for_ns d ns))
       data found = inl (data', found') -> Q data' found') ->
  Q data found ->
  ns_loop d display nss n data found = (tr, inl (n', data', found')) ->
  Q data' found' /\ n' = n.
Proof.
  intros Hn Hstep. revert data found tr.
  induction nss as [|ns nss IH]; intros data found tr HQ H; simpl in H.
  - inversion H; subst. auto.
  - destruct n as [x|].
    + rewrite Hn in H. simpl in H.
      destruct (intf_keys_loop d ns display (Some x) (db_for_ns d ns)
                  (intf_keys (db_for_ns d ns)) data found) as [[data1 found1]|e]
        eqn:E; [|discriminate].
      destruct (ns_loop d display nss (Some x) data1 found1) as [tr1 r1] eqn:E1.
      inversion H; subst. eapply IH; [eapply Hstep; eauto | exact E1].
    + simpl in H.
      destruct (intf_keys_loop d ns display None (db_for_ns d ns)
                  (intf_keys (db_for_ns d ns)) data found) as [[data1 found1]|e]
        eqn:E; [|discriminate].
      destruct (ns_loop d display nss None data1 found1) as [tr1 r1] eqn:E1.
      inversion H; subst. eapply IH; [eapply Hstep; eauto | exact E1].
Qed.

Lemma ns_loop_ok_trace d display nss n data found tr r :
  ns_loop d display nss n data found = (tr, inl r) -> tr = map EConnect nss.
Proof.
  revert n data found tr.
  induction nss as [|ns nss IH]; intros n data found tr H; simpl in H.
  - inversion H. reflexivity.
  - destruct (match n with
              | Some n0 => let* n' := try_convert_interfacename_from_alias
                                        (naming d) (ports d) n0 in ret (Some n')
              | None => ret None
              end) as [n1|e]; [|discriminate].
    destruct (intf_keys_loop d ns display n1 (db_for_ns d ns)
                (intf_keys (db_for_ns d ns)) data found) as [[data1 found1]|e];
      [|discriminate].
    destruct (ns_loop d display nss n1 data1 found1) as [tr1 r1] eqn:E.
    inversion H; subst. simpl. f_equal. eapply IH. exact E.
Qed.

(** How a run of [mpls] unfolds: the single-ASIC guard, the display
    option the loop uses, the loop over the namespaces and the end. *)
Lemma mpls_run d interfacename namespace display tr r :
  mpls d interfacename namespace display = (tr, r) ->
  (is_multi_asic d = false /\
   tr = [EPrint "Error: Invalid display option command for single asic"] /\
   r = inl tt) \/
  exists disp tr0 r0,
    (is_multi_asic d = true -> disp = display) /\
    (is_multi_asic d = false -> disp = None) /\
    ns_loop d (match interfacename with
               | Some n => if String.eqb n "" then disp else Some "all"
               | None => disp end)
      (ns_list d (match interfacename with
                  | Some n => if String.eqb n "" then disp else Some "all"
                  | None => disp end) namespace)
      interfacename [] false = (tr0, r0) /\
    match r0 with
    | inr e => tr = tr0 /\ r = inr e
    | inl (n', data, found) =>
        match n' with
        | Some x =>
            if found then tr = app tr0 [ETable (mpls_body d data)] /\ r = inl tt
            else tr = tr0 /\ r = inr (UsageError ("interface " ++ x ++ " doesn`t exist"))
        | None => tr = app tr0 [ETable (mpls_body d data)] /\ r = inl tt
        end
    end.
Proof.
  intros H. unfold mpls in H. cbv zeta in H.
  assert (Hg : forall disp,
    (is_multi_asic d = true -> disp = display) ->
    (is_multi_asic d = false -> disp = None) ->
    (let display := match interfacename with
                    | Some n => if String.eqb n "" then disp else Some "all"
                    | None => disp
                    end in
     let nss := ns_list d display namespace in
     let (tr, r) := ns_loop d display nss interfacename [] false in
     match r with
     | inr e => (tr, inr e)
     | inl (interfacename, intfs_data, intf_found) =>
         match interfacename with
         | Some n =>
             if negb intf_found then
               (tr, raise (UsageError ("interface " ++ n ++ " doesn`t exist")))
             else (app tr [ETable (mpls_body d intfs_data)], ret tt)
         | None => (app tr [ETable (mpls_body d intfs_data)], ret tt)
         end
     end) = (tr, r) ->
    exists disp tr0 r0,
    (is_multi_asic d = true -> disp = display) /\
    (is_multi_asic d = false -> disp = None) /\
    ns_loop d (match interfacename with
               | Some n => if String.eqb n "" then disp else Some "all"
               | None => disp end)
      (ns_list d (match interfacename with
                  | Some n => if String.eqb n "" then disp else Some "all"
                  | None => disp end) namespace)
      interfacename [] false = (tr0, r0) /\
    match r0 with
    | inr e => tr = tr0 /\ r = inr e
    | inl (n', data, found) =>
        match n' with
        | Some x =>
            if found then tr = app tr0 [ETable (mpls_body d data)] /\ r = inl tt
            else tr = tr0 /\ r = inr (UsageError ("interface " ++ x ++ " doesn`t exist"))
        | None => tr = app tr0 [ETable (mpls_body d data)] /\ r = inl tt
        end
    end).
  { intros disp H1 H2 Hrun. cbv zeta in Hrun. exists disp.
    match type of Hrun with
    | context [ns_loop ?a ?b ?c ?e ?f ?g] =>
        destruct (ns_loop a b c e f g) as [tr0 r0] eqn:E
    end.
    exists tr0, r0. split; [exact H1|]. split; [exact H2|]. split; [reflexivity|].
    destruct r0 as [[[n' data] found]|e]; [|inversion Hrun; auto].
    destruct n' as [x|]; [destruct found|]; inversion Hrun; auto. }
  destruct (is_multi_asic d) eqn:Em.
  - right. apply (Hg display); [auto | discriminate | exact H].
  - destruct (option_str_eqb display "frontend" || option_str_eqb display "all"
              || match display with None => true | Some _ => false end).
    + right. apply (Hg None); [discriminate | auto | exact H].
    + left. inversion H. auto.
Qed.


Lemma ns_loop_no_table d display nss n data found tr r body :
  ns_loop d display nss n data found = (tr, r) -> ~ In (ETable body) tr.
Proof.
  intros H Hin. apply ns_loop_trace in H. rewrite Forall_forall in H.
  destruct (H _ Hin) as [ns Hc]. discriminate.
Qed.

Lemma table_after_loop d display nss n data found tr0 r0 body b :
  ns_loop d display nss n data found = (tr0, r0) ->
  In (ETable body) (app tr0 [ETable b]) -> body = b.
Proof.
  intros H Hin. apply in_app_or in Hin as [Hin|[Hin|[]]].
  - exfalso. eapply ns_loop_no_table; eauto.
  - inversion Hin. reflexivity.
Qed.

Lemma mpls_body_Forall (P : string -> Prop) d data :
  Forall P (dict_keys data) ->
  Forall (fun row => exists ifname, hd "" row = display_name d ifname /\ P ifname)
    (mpls_body d data).
Proof.
  intros H. rewrite Forall_forall in H. apply Forall_forall.
  intros row Hrow. unfold mpls_body in Hrow. apply in_map_iff in Hrow as [i [Hi Hin]].
  subst row. exists i. split; [reflexivity|]. apply H, in_natsorted, Hin.
Qed.

Lemma try_convert_default d x :
  naming d = Default ->
  try_convert_interfacename_from_alias (naming d) (ports d) x = ret x.
Proof.
  intros Hd. rewrite Hd. reflexivity.
Qed.

Lemma dict_keys_set_cases {V} (d : dict V) k v x :
  In x (dict_keys (dict_set k v d)) -> x = k \/ In x (dict_keys d).
Proof.
  induction d as [|[k0 v0] d IH]; simpl; intros H.
  - destruct H as [H|[]]. auto.
  - destruct (String.eqb k k0); simpl in H; destruct H as [H|H]; auto.
    destruct (IH H); auto.
Qed.

Lemma dict_keys_set_nodup {V} (d : dict V) k v :
  NoDup (dict_keys d) -> NoDup (dict_keys (dict_set k v d)).
Proof.
  induction d as [|[k0 v0] d IH]; simpl; intros H.
  - constructor; [intros []|constructor].
  - inversion H; subst.
    destruct (String.eqb k k0) eqn:E; simpl; constructor; auto.
    intros Hin. apply dict_keys_set_cases in Hin as [Hin|Hin]; [|contradiction].
    subst k0. rewrite String.eqb_refl in E. discriminate.
Qed.

(** Every interface the loop over the keys of one namespace records comes
    from one of its [INTF_TABLE] keys: the second field of the key. *)
Lemma intf_keys_loop_keys d ns display n db keys data found data' found' :
  intf_keys_loop d ns display n db keys data found = inl (data', found') ->
  forall k, In k (dict_keys data') ->
  In k (dict_keys data) \/
  exists key, In key keys /\ nth_error (py_split ":"%char key) 1 = Some k.
Proof.
  revert data found.
  induction keys as [|key keys IH]; intros data found H k Hk;
    cbn -[nth_error py_split] in H.
  - inversion H; subst. auto.
  - destruct (nth_error (py_split ":"%char key) 1) as [ifname|] eqn:Eif;
      [|unfold raise in H; discriminate].
    assert (Hstep : forall data0 f,
      (forall x, In x (dict_keys data0) -> In x (dict_keys data) \/ x = ifname) ->
      intf_keys_loop d ns display n db keys data0 f = inl (data', found') ->
      In k (dict_keys data) \/
      exists key0, In key0 (key :: keys) /\ nth_error (py_split ":"%char key0) 1 = Some k).
    { intros data0 f H0 Hl.
      destruct (IH data0 f Hl k Hk) as [Hk0|[key0 [Hin Hs]]].
      - destruct (H0 _ Hk0) as [Hd|Hd]; [left; exact Hd|].
        subst k. right. exists key. split; [left; reflexivity | exact Eif].
      - right. exists key0. split; [right; exact Hin | exact Hs]. }
    destruct (negb (Nat.eqb (length (py_split ":"%char key)) 2));
      [eapply Hstep; [|exact H]; intros x Hx; left; exact Hx|].
    destruct n as [x|]; [destruct (String.eqb x ifname)|];
      try destruct (intf_hidden d ns display ifname);
      eapply Hstep; try exact H; intros x0 Hx0;
      first [ left; exact Hx0
            | apply dict_keys_set_cases in Hx0; destruct Hx0; auto ].
Qed.

(** An invariant of the interfaces collected over the namespaces, whatever
    the interface name becomes through the conversions. *)
Lemma ns_loop_inv (Q : dict string -> Prop) d display nss n data found
    tr n' data' found' :
  (forall ns m data found data' found', In ns nss -> Q data ->
     intf_keys_loop d ns display m (db_for_ns d ns) (intf_keys (db_for_ns d ns))
       data found = inl (data', found') -> Q data') ->
  Q data ->
  ns_loop d display nss n data found = (tr, inl (n', data', found')) ->
  Q data'.
Proof.
  revert n data found tr.
  induction nss as [|ns nss IH]; intros n data found tr Hstep HQ H; simpl in H.
  - inversion H; subst. exact HQ.
  - destruct (match n with
              | Some n0 => let* n' := try_convert_interfacename_from_alias
                                        (naming d) (ports d) n0 in ret (Some n')
              | None => ret None
              end) as [n1|e]; [|discriminate].
    destruct (intf_keys_loop d ns display n1 (db_for_ns d ns)
                (intf_keys (db_for_ns d ns)) data found) as [[data1 found1]|e]
      eqn:E; [|discriminate].
    destruct (ns_loop d display nss n1 data1 found1) as [tr1 r1] eqn:E1.
    inversion H; subst.
    eapply IH; [| eapply Hstep; [left; reflexivity | exact HQ | exact E] | exact E1].
    intros ns0 m data0 f0 data0' f0' Hin. apply Hstep. right. exact Hin.
Qed.

(** Claim C7 (as amended): the rows of [mpls] are in the natural ascending
    order of the canonical names of the interfaces listed, whatever the
    naming mode: there is a list of distinct interface names, each read
    from the [INTF_TABLE] keys of a namespace the command connected to,
    sorted in natural order, whose display names (the alias in alias mode)
    are the first column of the rows, in order. So the rows follow the
    order of the names, not of the aliases. *)
Theorem mpls_rows_sorted_by_name d interfacename namespace display tr r body :
  mpls d interfacename namespace display = (tr, r) ->
  In (ETable body) tr ->
  exists names,
    Sorted nat_le_rel names /\ NoDup names /\
    map (hd "") body = map (display_name d) names /\
    Forall (fun n => exists ns key,
              In (EConnect ns) tr /\ In key (intf_keys (db_for_ns d ns)) /\
              nth_error (py_split ":"%char key) 1 = Some n) names.
Proof.
  intros H Hin.
  destruct (mpls_run d interfacename namespace display tr r H)
    as [[_ [Htr _]] | [disp [tr0 [r0 [_ [_ [E Hend]]]]]]].
  - subst tr. destruct Hin as [Hin|[]]. discriminate.
  - set (disp' := match interfacename with
                  | Some n => if String.eqb n "" then disp else Some "all"
                  | None => disp end) in E.
    destruct r0 as [[[n' data] found]|e];
      [|destruct Hend as [Htr _]; subst tr; exfalso; eapply ns_loop_no_table; eauto].
    assert (Htab : tr = app tr0 [ETable (mpls_body d data)]).
    { destruct n' as [x|]; [destruct found|]; destruct Hend as [Htr _];
        [exact Htr | subst tr; exfalso; eapply ns_loop_no_table; eauto | exact Htr]. }
    subst tr. rewrite (table_after_loop _ _ _ _ _ _ _ _ _ _ E Hin).
    pose proof (ns_loop_ok_trace _ _ _ _ _ _ _ _ E) as Htr0.
    exists (natsorted (dict_keys data)). split; [apply natsorted_sorted|].
    split.
    { eapply Permutation_NoDup; [apply Permutation_sym, natsorted_perm|].
      refine (ns_loop_inv (fun data => NoDup (dict_keys data)) d disp' _
                interfacename [] false tr0 n' data found _ (NoDup_nil _) E).
      intros ns m data0 f0 data1 f1 _ HQ Hl.
      eapply (intf_keys_loop_ind (fun data _ => NoDup (dict_keys data)));
        [| | exact HQ | exact Hl].
      - intros data2 f2 ifname v HQ2 _ _. apply dict_keys_set_nodup, HQ2.
      - intros data2 f2 ifname HQ2 _ _. exact HQ2. }
    split; [apply mpls_body_names|].
    apply Forall_forall. intros k Hk. apply (proj1 (in_natsorted _ _)) in Hk.
    assert (HQ : forall k, In k (dict_keys data) ->
              exists ns key, In ns (ns_list d disp' namespace) /\
                In key (intf_keys (db_for_ns d ns)) /\
                nth_error (py_split ":"%char key) 1 = Some k).
    { eapply (ns_loop_inv (fun data => forall k, In k (dict_keys data) ->
                exists ns key, In ns (ns_list d disp' namespace) /\
                  In key (intf_keys (db_for_ns d ns)) /\
                  nth_error (py_split ":"%char key) 1 = Some k))
        with (n := interfacename) (data := []) (found := false) (tr := tr0)
             (n' := n') (found' := found);
        [| intros k0 [] | exact E].
      intros ns m data0 f0 data1 f1 Hns HQ0 Hl k0 Hk0.
      destruct (intf_keys_loop_keys _ _ _ _ _ _ _ _ _ _ Hl k0 Hk0)
        as [Hd|[key [Hkey Hs]]]; [exact (HQ0 k0 Hd)|].
      exists ns, key. auto. }
    destruct (HQ k Hk) as [ns [key [Hns [Hkey Hs]]]].
    exists ns, key. split; [|auto].
    apply in_or_app. left. rewrite Htr0. apply in_map, Hns.
Qed.

Lemma mpls_rows_sorted_by_name_witness :
  let d := sample_device true AliasMode sample_ports in
  mpls d None None None
  = ([EConnect "asic0"; EConnect "asic1";
      ETable [["etp1"; "enable"]; ["etp2"; "disable"]]], ret tt) /\
  exists names,
    Sorted nat_le_rel names /\ NoDup names /\
    map (hd "") [["etp1"; "enable"]; ["etp2"; "disable"]] = map (display_name d) names /\
    Forall (fun n => exists ns key,
              In (EConnect ns) [EConnect "asic0"; EConnect "asic1";
                                ETable [["etp1"; "enable"]; ["etp2"; "disable"]]] /\
              In key (intf_keys (db_for_ns d ns)) /\
              nth_error (py_split ":"%char key) 1 = Some n) names.
Proof.
  intros d.
  assert (E : mpls d None None None
              = ([EConnect "asic0"; EConnect "asic1";
                  ETable [["etp1"; "enable"]; ["etp2"; "disable"]]], ret tt))
    by reflexivity.
  split; [exact E|].
  apply (mpls_rows_sorted_by_name d None None None _ _ _ E).
  simpl. auto.
Defined.

(** Extra: when [mpls] lists every interface (no name given) and the
    display option is not [all], or on a single-ASIC device whatever the
    display option, no interface whose name contains [Loopback] is shown. *)
Theorem mpls_hides_loopback d namespace display tr r body :
  mpls d None namespace display = (tr, r) ->
  (is_multi_asic d = false \/ option_str_eqb display "all" = false) ->
  In (ETable body) tr ->
  Forall (fun row => exists ifname, hd "" row = display_name d ifname /\
                                    py_contains "Loopback" ifname = false) body.
Proof.
  intros H Hcase Hin.
  destruct (mpls_run d None namespace display tr r H)
    as [[_ [Htr _]] | [disp [tr0 [r0 [H1 [H2 [E Hend]]]]]]].
  - subst tr. destruct Hin as [Hin|[]]. discriminate.
  - assert (Hall : option_str_eqb disp "all" = false).
    { destruct (is_multi_asic d) eqn:Em.
      - rewrite (H1 eq_refl). destruct Hcase; [discriminate | assumption].
      - rewrite (H2 eq_refl). reflexivity. }
    destruct r0 as [[[n' data] found]|e].
    + edestruct (ns_loop_ind
                  (fun data _ => Forall (fun i => py_contains "Loopback" i = false)
                                        (dict_keys data))
                  d disp (ns_list d disp namespace) None [] false tr0 n' data found I) as [HQ Hn']; [| constructor | exact E |].
      * intros ns data0 found0 data1 found1 HQ0 Hloop.
        eapply (intf_keys_loop_ind
                  (fun data _ => Forall (fun i => py_contains "Loopback" i = false)
                                        (dict_keys data)));
          [| | exact HQ0 | exact Hloop].
        -- intros data2 found2 ifname v HQ2 Hh _.
           apply dict_keys_set_Forall; [exact HQ2|].
           unfold intf_hidden in Hh. rewrite Hall in Hh. simpl in Hh.
           destruct (py_contains "Loopback" ifname); [discriminate | reflexivity].
        -- intros data2 found2 ifname _ _ Hs. discriminate.
      * subst n'. destruct Hend as [Htr _]. subst tr.
        rewrite (table_after_loop _ _ _ _ _ _ _ _ _ _ E Hin).
        apply mpls_body_Forall, HQ.
    + destruct Hend as [Htr _]. subst tr. exfalso.
      eapply ns_loop_no_table; eauto.
Qed.

Lemma mpls_hides_loopback_witness :
  let d := sample_device true Default sample_ports in
  mpls d None None None
  = ([EConnect "asic0"; EConnect "asic1";
      ETable [["Ethernet0"; "enable"]; ["Ethernet4"; "disable"]]], ret tt) /\
  Forall (fun row => exists ifname, hd "" row = display_name d ifname /\
                                    py_contains "Loopback" ifname = false)
    [["Ethernet0"; "enable"]; ["Ethernet4"; "disable"]].
Proof.
  intros d.
  assert (E : mpls d None None None
              = ([EConnect "asic0"; EConnect "asic1";
                  ETable [["Ethernet0"; "enable"]; ["Ethernet4"; "disable"]]], ret tt))
    by reflexivity.
  split; [exact E|].
  apply (mpls_hides_loopback d None None _ _ _ E).
  - right. reflexivity.
  - simpl. auto.
Defined.

(** Extra: in default naming mode, [mpls NAME] for a non-empty name prints,
    when it prints a table, exactly one row, the one of that name. *)
Theorem mpls_default_single_row d n namespace display tr r body :
  naming d = Default -> n <> "" ->
  mpls d (Some n) namespace display = (tr, r) ->
  In (ETable body) tr ->
  exists v, body = [[n; v]].
Proof.
  intros Hd Hne H Hin.
  destruct (mpls_run d (Some n) namespace display tr r H)
    as [[_ [Htr _]] | [disp [tr0 [r0 [_ [_ [E Hend]]]]]]].
  - subst tr. destruct Hin as [Hin|[]]. discriminate.
  - assert (Hn : String.eqb n "" = false) by (apply String.eqb_neq; exact Hne).
    rewrite Hn in E.
    destruct r0 as [[[n' data] found]|e].
    + edestruct (ns_loop_ind
                  (fun data found => (data = [] /\ found = false) \/
                                     exists v, data = [(n, v)])
                  d (Some "all") (ns_list d (Some "all") namespace) (Some n) [] false
                  tr0 n' data found
                  (try_convert_default d n Hd)) as [HQ Hn']; [| left; auto | exact E |].
      * intros ns data0 found0 data1 found1 HQ0 Hloop.
        eapply (intf_keys_loop_ind
                  (fun data found => (data = [] /\ found = false) \/
                                     exists v, data = [(n, v)]));
          [| | exact HQ0 | exact Hloop].
        -- intros data2 found2 ifname v HQ2 _ Hx. simpl in Hx. subst ifname. right.
           exists v. destruct HQ2 as [[Hd2 _] | [v0 Hd2]]; subst data2; simpl;
             [reflexivity | rewrite String.eqb_refl; reflexivity].
        -- intros data2 found2 ifname _ Hh _. unfold intf_hidden in Hh.
           simpl in Hh. discriminate.
      * subst n'. destruct found; [|destruct Hend as [Htr _]; subst tr;
                                     exfalso; eapply ns_loop_no_table; eauto].
        destruct Hend as [Htr _]. subst tr.
        rewrite (table_after_loop _ _ _ _ _ _ _ _ _ _ E Hin).
        destruct HQ as [[_ Hf] | [v Hdata]]; [discriminate|]. subst data.
        exists v. unfold mpls_body. simpl. rewrite String.eqb_refl, Hd. reflexivity.
    + destruct Hend as [Htr _]. subst tr. exfalso.
      eapply ns_loop_no_table; eauto.
Qed.

Lemma mpls_default_single_row_witness :
  let d := sample_device true Default sample_ports in
  mpls d (Some "Ethernet0") None None
  = ([EConnect "asic0"; EConnect "asic1"; ETable [["Ethernet0"; "enable"]]], ret tt) /\
  exists v, [["Ethernet0"; "enable"]] = [["Ethernet0"; v]].
Proof.
  intros d.
  assert (E : mpls d (Some "Ethernet0") None None
              = ([EConnect "asic0"; EConnect "asic1";
                  ETable [["Ethernet0"; "enable"]]], ret tt)) by reflexivity.
  split; [exact E|].
  apply (mpls_default_single_row d "Ethernet0" None None
           [EConnect "asic0"; EConnect "asic1"; ETable [["Ethernet0"; "enable"]]]
           (ret tt) [["Ethernet0"; "enable"]] eq_refl);
    [discriminate | exact E | simpl; auto].
Defined.



(** ** [show interfaces neighbor expected] *)

Lemma neighbor_row_spec nd md p row :
  neighbor_row nd md p = inl row <->
  exists entry device nport meta,
    dict_get nd p = Some entry /\ dict_get entry "name" = Some device /\
    dict_get entry "port" = Some nport /\ dict_get md device = Some meta /\
    row = [p; device; nport; field_or_none meta "lo_addr";
           field_or_none meta "mgmt_addr"; field_or_none meta "type"].
Proof.
  unfold neighbor_row, dict_index, bind, ret, raise. split.
  - destruct (dict_get nd p) as [entry|] eqn:E1; cbv beta iota; [|discriminate].
    destruct (dict_get entry "name") as [device|] eqn:E2; cbv beta iota; [|discriminate].
    destruct (dict_get entry "port") as [nport|] eqn:E3; cbv beta iota; [|discriminate].
    destruct (dict_get md device) as [meta|] eqn:E4; cbv beta iota; [|discriminate].
    intros H. inversion H. exists entry, device, nport, meta. auto.
  - intros (entry & device & nport & meta & E1 & E2 & E3 & E4 & Hr).
    rewrite E1. cbv beta iota. rewrite E2. cbv beta iota. rewrite E3.
    cbv beta iota. rewrite E4. subst row. reflexivity.
Qed.

Lemma neighbor_rows_spec nd md l :
  map (hd "") (neighbor_rows nd md l) =
    filter (fun p => match neighbor_row nd md p with inl _ => true | inr _ => false end) l /\
  Forall (fun row => neighbor_row nd md (hd "" row) = inl row) (neighbor_rows nd md l).
Proof.
  induction l as [|p l [IH1 IH2]]; simpl; [split; constructor|].
  destruct (neighbor_row nd md p) as [row|e] eqn:E; simpl; [|auto].
  assert (Hh : hd "" row = p).
  { apply neighbor_row_spec in E as (? & ? & ? & ? & _ & _ & _ & _ & ->). reflexivity. }
  rewrite Hh. split; [f_equal; exact IH1|]. constructor; [rewrite Hh; exact E | exact IH2].
Qed.

(** Extra: in default naming mode, [neighbor expected] with no interface
    lists, in the natural order of the port names, exactly the ports of
    [DEVICE_NEIGHBOR] whose entry has a [name] and a [port] and whose
    neighbor device has an entry in [DEVICE_NEIGHBOR_METADATA]; every row
    shows the port, the neighbor and its port, then the loopback address,
    management address and type of the neighbor, "None" for a missing one.
    The other ports are skipped without a message. *)
Theorem expected_listing_default ports nd md :
  exists body,
    expected Default ports (Some nd) (Some md) None = ret (ExpTable body) /\
    Sorted nat_le_rel (map (hd "") body) /\
    (forall p, In p (map (hd "") body) <->
       exists entry device nport meta,
         dict_get nd p = Some entry /\ dict_get entry "name" = Some device /\
         dict_get entry "port" = Some nport /\ dict_get md device = Some meta) /\
    Forall (fun row => exists entry device nport meta,
         dict_get nd (hd "" row) = Some entry /\ dict_get entry "name" = Some device /\
         dict_get entry "port" = Some nport /\ dict_get md device = Some meta /\
         row = [hd "" row; device; nport; field_or_none meta "lo_addr";
                field_or_none meta "mgmt_addr"; field_or_none meta "type"]) body.
Proof.
  assert (Hr : rename_neighbors Default ports (natsorted (dict_keys nd)) nd = inl nd).
  { generalize (natsorted (dict_keys nd)). induction l; simpl; auto. }
  unfold expected. rewrite Hr. simpl.
  eexists. split; [reflexivity|].
  destruct (neighbor_rows_spec nd md (natsorted (dict_keys nd))) as [H1 H2].
  rewrite H1. split; [|split].
  - apply filter_sorted, natsorted_sorted.
  - intros p. rewrite filter_In, in_natsorted. split.
    + intros [_ Hp]. destruct (neighbor_row nd md p) as [row|] eqn:E; [|discriminate].
      apply neighbor_row_spec in E as (entry & device & nport & meta & E1 & E2 & E3 & E4 & _).
      exists entry, device, nport, meta. auto.
    + intros (entry & device & nport & meta & E1 & E2 & E3 & E4). split.
      * apply dict_get_in. congruence.
      * rewrite (proj2 (neighbor_row_spec nd md p
                   [p; device; nport; field_or_none meta "lo_addr";
                    field_or_none meta "mgmt_addr"; field_or_none meta "type"]));
          [reflexivity|].
        exists entry, device, nport, meta. auto.
  - eapply Forall_impl; [|exact H2]. intros row Hrow.
    apply neighbor_row_spec in Hrow
      as (entry & device & nport & meta & E1 & E2 & E3 & E4 & Hrow).
    rewrite Hrow in *. simpl in *. exists entry, device, nport, meta. auto.
Qed.

Lemma dict_pop_found {V} (d : dict V) k v :
  dict_get d k = Some v -> fst (dict_pop d k) = Some v.
Proof.
  induction d as [|[k0 v0] d IH]; simpl; [discriminate|].
  destruct (String.eqb k k0).
  - intros H. inversion H. reflexivity.
  - intros H. destruct (dict_pop d k) as [r d''] eqn:E. simpl in *. auto.
Qed.

Lemma dict_pop_other {V} (d : dict V) k q :
  q <> k -> dict_get (snd (dict_pop d k)) q = dict_get d q.
Proof.
  intros Hq. induction d as [|[k0 v0] d IH]; simpl; [reflexivity|].
  destruct (String.eqb k k0) eqn:E.
  - apply String.eqb_eq in E. subst k0. simpl.
    apply String.eqb_neq in Hq. rewrite Hq. reflexivity.
  - destruct (dict_pop d k) as [r d''] eqn:Ep. simpl in *.
    destruct (String.eqb q k0); [reflexivity | exact IH].
Qed.

(** The renaming of alias mode, for a list of ports present in the table:
    it goes through, and when no alias is the name of another port of the
    list and no two ports share an alias, every port's entry ends up under
    its alias and the other keys keep theirs. *)
Lemma rename_neighbors_alias ports l (d : dict (dict string)) :
  NoDup l ->
  (forall p, In p l -> dict_get d p <> None) ->
  (forall p q, In p l -> In q l -> name_to_alias ports p = q -> p = q) ->
  (forall p q, In p l -> In q l -> name_to_alias ports p = name_to_alias ports q -> p = q) ->
  exists d', rename_neighbors AliasMode ports l d = inl d' /\
    (forall p, In p l -> dict_get d' (name_to_alias ports p) = dict_get d p) /\
    (forall k, ~ In k l -> (forall p, In p l -> name_to_alias ports p <> k) ->
       dict_get d' k = dict_get d k).
Proof.
  revert d. induction l as [|t rest IH]; intros d Hnd Hin Hname Hinj.
  - exists d. split; [reflexivity|]. split; [intros p []|]. auto.
  - inversion Hnd as [|? ? Ht Hnd']; subst.
    destruct (dict_get d t) as [v|] eqn:Et;
      [|exfalso; apply (Hin t); [left; reflexivity | exact Et]].
    simpl. destruct (dict_pop d t) as [r d0] eqn:Ep.
    pose proof (dict_pop_found d t v Et) as Hr. rewrite Ep in Hr. simpl in Hr. subst r.
    set (d1 := dict_set (name_to_alias ports t) v d0).
    assert (Hd1 : forall q, q <> t -> q <> name_to_alias ports t ->
                            dict_get d1 q = dict_get d q).
    { intros q Hq1 Hq2. unfold d1. rewrite dict_get_set.
      apply String.eqb_neq in Hq2. rewrite Hq2.
      pose proof (dict_pop_other d t q Hq1) as Ho. rewrite Ep in Ho. exact Ho. }
    assert (Hrest : forall q, In q rest -> q <> t /\ q <> name_to_alias ports t).
    { intros q Hq. split.
      - intros ->. contradiction.
      - intros Hqa. apply Ht. rewrite (Hname t q); [exact Hq | left; reflexivity
                                                  | right; exact Hq | congruence]. }
    destruct (IH d1 Hnd') as [d' [Hrun [Hmap Hframe]]].
    + intros q Hq. destruct (Hrest q Hq) as [H1 H2]. rewrite Hd1 by assumption.
      apply Hin. right. exact Hq.
    + intros p q Hp Hq. apply Hname; right; assumption.
    + intros p q Hp Hq. apply Hinj; right; assumption.
    + exists d'. split; [exact Hrun|]. split.
      * intros p [Hp|Hp].
        -- subst p. rewrite Hframe.
           ++ unfold d1. rewrite dict_get_set, String.eqb_refl. congruence.
           ++ intros Hin'. apply Ht. rewrite (Hname t (name_to_alias ports t));
                [exact Hin' | left; reflexivity | right; exact Hin' | reflexivity].
           ++ intros p Hp Hpa. apply Ht. rewrite (Hinj t p);
                [exact Hp | left; reflexivity | right; exact Hp | congruence].
        -- rewrite Hmap by exact Hp. destruct (Hrest p Hp). apply Hd1; assumption.
      * intros k Hk Hka. rewrite Hframe.
        -- apply Hd1.
           ++ intros ->. apply Hk. left. reflexivity.
           ++ intros ->. apply (Hka t); [left|]; reflexivity.
        -- intros Hk'. apply Hk. right. exact Hk'.
        -- intros p Hp. apply Hka. right. exact Hp.
Qed.

Lemma neighbor_row_moved nd nd0 md a p :
  dict_get nd a = dict_get nd0 p ->
  neighbor_row nd md a =
  match neighbor_row nd0 md p with
  | inl row => inl (a :: tl row)
  | inr e => inr e
  end.
Proof.
  intros H. unfold neighbor_row, dict_index, bind, ret, raise. rewrite H.
  destruct (dict_get nd0 p) as [entry|]; cbv beta iota; [|reflexivity].
  destruct (dict_get entry "name") as [device|]; cbv beta iota; [|reflexivity].
  destruct (dict_get entry "port") as [nport|]; cbv beta iota; [|reflexivity].
  destruct (dict_get md device); reflexivity.
Qed.

(** Extra: in alias naming mode, when no two ports of [DEVICE_NEIGHBOR]
    share an alias and no port's alias is the name of another of its ports,
    [neighbor expected ALIAS] for the alias of a port, when that alias is
    not empty (an empty argument lists every port), shows the neighbor
    information of that port under its alias, or says that there is none
    when that port's information is incomplete. *)
Theorem expected_alias_query ports nd md p :
  NoDup (dict_keys nd) ->
  (forall p q, In p (dict_keys nd) -> In q (dict_keys nd) ->
     name_to_alias ports p = q -> p = q) ->
  (forall p q, In p (dict_keys nd) -> In q (dict_keys nd) ->
     name_to_alias ports p = name_to_alias ports q -> p = q) ->
  In p (dict_keys nd) -> name_to_alias ports p <> "" ->
  expected AliasMode ports (Some nd) (Some md) (Some (name_to_alias ports p)) =
  match neighbor_row nd md p with
  | inl row => ret (ExpTable [name_to_alias ports p :: tl row])
  | inr _ => ret (ExpMsg ("No neighbor information available for interface "
                          ++ name_to_alias ports p))
  end.
Proof.
  intros Hnd Hname Hinj Hp Hne.
  destruct (rename_neighbors_alias ports (natsorted (dict_keys nd)) nd)
    as [nd' [Hrun [Hmap _]]].
  - eapply Permutation_NoDup; [apply Permutation_sym, natsorted_perm | exact Hnd].
  - intros q Hq. apply dict_get_in, in_natsorted, Hq.
  - intros q r Hq Hr. apply Hname; apply in_natsorted; assumption.
  - intros q r Hq Hr. apply Hinj; apply in_natsorted; assumption.
  - unfold expected. rewrite Hrun. simpl.
    apply String.eqb_neq in Hne. rewrite Hne.
    rewrite (neighbor_row_moved nd' nd md (name_to_alias ports p) p).
    + destruct (neighbor_row nd md p); reflexivity.
    + apply Hmap, in_natsorted, Hp.
Qed.

Lemma rename_neighbors_total mode ports l (d : dict (dict string)) :
  NoDup l -> (forall p, In p l -> dict_get d p <> None) ->
  exists d', rename_neighbors mode ports l d = inl d'.
Proof.
  revert d. induction l as [|t rest IH]; intros d Hnd Hin; [exists d; reflexivity|].
  inversion Hnd as [|? ? Ht Hnd']; subst. destruct mode; simpl.
  - apply IH; [exact Hnd'|]. intros q Hq. apply Hin. right. exact Hq.
  - destruct (dict_get d t) as [v|] eqn:Et;
      [|exfalso; apply (Hin t); [left; reflexivity | exact Et]].
    destruct (dict_pop d t) as [r d0] eqn:Ep.
    pose proof (dict_pop_found d t v Et) as Hr. rewrite Ep in Hr. simpl in Hr. subst r.
    apply IH; [exact Hnd'|]. intros q Hq. rewrite dict_get_set.
    destruct (String.eqb q (name_to_alias ports t)); [discriminate|].
    assert (Hqt : q <> t) by (intros ->; contradiction).
    pose proof (dict_pop_other d t q Hqt) as Ho. rewrite Ep in Ho. simpl in Ho.
    rewrite Ho. apply Hin. right. exact Hq.
Qed.

(** Extra: [neighbor expected] never fails once [DEVICE_NEIGHBOR] is read,
    in either naming mode: the renaming of alias mode always finds the port
    it pops, and a port without complete information is passed over or
    reported, not raised. *)
Theorem expected_never_fails mode ports nd md_tbl interfacename :
  NoDup (dict_keys nd) ->
  exists out, expected mode ports (Some nd) md_tbl interfacename = inl out.
Proof.
  intros Hnd. unfold expected. destruct md_tbl as [md|]; [|eexists; reflexivity].
  destruct (rename_neighbors_total mode ports (natsorted (dict_keys nd)) nd)
    as [nd' Hr].
  - eapply Permutation_NoDup; [apply Permutation_sym, natsorted_perm | exact Hnd].
  - intros q Hq. apply dict_get_in, in_natsorted, Hq.
  - rewrite Hr. simpl. destruct interfacename as [i|]; [|eexists; reflexivity].
    destruct (String.eqb i ""); [eexists; reflexivity|].
    destruct (neighbor_row nd' md i); eexists; reflexivity.
Qed.

Lemma sample_neighbors_nodup : NoDup (dict_keys sample_neighbors).
Proof.
  simpl. constructor; [simpl; intros [H|[]]; discriminate | constructor; [simpl; tauto | constructor]].
Qed.

Lemma expected_never_fails_witness :
  expected AliasMode sample_ports (Some sample_neighbors) (Some sample_neighbor_metadata)
    None
  = inl (ExpTable [["etp1"; "ARISTA01T1"; "Ethernet1"; "10.1.0.1"; "None"; "LeafRouter"]]) /\
  exists out, expected AliasMode sample_ports (Some sample_neighbors)
                (Some sample_neighbor_metadata) None = inl out.
Proof.
  split; [reflexivity|].
  exact (expected_never_fails AliasMode sample_ports sample_neighbors
           (Some sample_neighbor_metadata) None sample_neighbors_nodup).
Defined.

Lemma expected_alias_query_witness :
  expected AliasMode sample_ports (Some sample_neighbors) (Some sample_neighbor_metadata)
    (Some "etp1")
  = inl (ExpTable [["etp1"; "ARISTA01T1"; "Ethernet1"; "10.1.0.1"; "None"; "LeafRouter"]]) /\
  expected AliasMode sample_ports (Some sample_neighbors) (Some sample_neighbor_metadata)
    (Some (name_to_alias sample_ports "Ethernet0")) =
  match neighbor_row sample_neighbors sample_neighbor_metadata "Ethernet0" with
  | inl row => ret (ExpTable [name_to_alias sample_ports "Ethernet0" :: tl row])
  | inr _ => ret (ExpMsg ("No neighbor information available for interface "
                          ++ name_to_alias sample_ports "Ethernet0"))
  end.
Proof.
  split; [reflexivity|].
  apply expected_alias_query.
  - exact sample_neighbors_nodup.
  - simpl. intros p q [<-|[<-|[]]] [<-|[<-|[]]]; vm_compute;
      first [reflexivity | intros H; discriminate H].
  - simpl. intros p q [<-|[<-|[]]] [<-|[<-|[]]]; vm_compute;
      first [reflexivity | intros H; discriminate H].
  - simpl. auto.
  - simpl. discriminate.
Defined.

(** ** [show interfaces tx_error] *)

Lemma prefix_app p k : String.prefix p (p ++ k) = true.
Proof.
  induction p as [|a p IH]; simpl; [destruct k; reflexivity|].
  destruct (Ascii.ascii_dec a a); [exact IH | contradiction].
Qed.

Lemma string_length_app p k :
  String.length (p ++ k) = (String.length p + String.length k)%nat.
Proof. induction p as [|a p IH]; simpl; [reflexivity | rewrite IH; reflexivity]. Qed.

Lemma substring_all s : String.substring 0 (String.length s) s = s.
Proof. induction s as [|a s IH]; simpl; [reflexivity | rewrite IH; reflexivity]. Qed.

Lemma substring_after_prefix p k :
  String.substring (String.length p) (String.length (p ++ k) - String.length p) (p ++ k) = k.
Proof.
  rewrite string_length_app.
  replace (String.length p + String.length k - String.length p)%nat
    with (String.length k) by lia.
  induction p as [|a p IH]; simpl; [apply substring_all | exact IH].
Qed.

Lemma py_replace_aux_absent old new : forall k f,
  old <> EmptyString ->
  py_contains old k = false -> (String.length k <= f)%nat ->
  py_replace_aux f old new k = k.
Proof.
  induction k as [|a k IH]; intros f Hold Hc Hf; destruct f as [|f];
    try reflexivity.
  - simpl. destruct old; [congruence | reflexivity].
  - cbn [py_contains] in Hc. apply orb_false_iff in Hc as [Hp Hc].
    cbn [py_replace_aux]. rewrite Hp. rewrite IH; auto. simpl in Hf. lia.
Qed.

Lemma py_replace_aux_S f old new s :
  py_replace_aux (S f) old new s =
  if String.prefix old s then
    new ++ py_replace_aux f old new
              (String.substring (String.length old)
                 (String.length s - String.length old) s)
  else
    match s with
    | EmptyString => EmptyString
    | String a s' => String a (py_replace_aux f old new s')
    end.
Proof. reflexivity. Qed.

(** Removing a prefix that does not occur again. *)
Lemma py_replace_prefix old k :
  old <> EmptyString -> py_contains old k = false ->
  py_replace (old ++ k) old "" = k.
Proof.
  intros Hold Hc. unfold py_replace. rewrite py_replace_aux_S.
  rewrite prefix_app, substring_after_prefix. simpl (EmptyString ++ _).
  apply py_replace_aux_absent; [exact Hold | exact Hc |].
  rewrite string_length_app. lia.
Qed.

(** Extra: for STATE_DB keys [TX_ERR_STATE|PORT] whose [PORT] does not
    itself contain ["TX_ERR_STATE|"], [tx_error] prints one row per key, in
    the order of the keys: the port, its [tx_status] in STATE_DB, and the
    [tx_error_stati] field of [TX_ERR_APPL:PORT] in APPL_DB, an empty
    string when that field is missing. *)
Theorem tx_error_rows state_get appl_get_all ks :
  Forall (fun k => py_contains "TX_ERR_STATE|" k = false) ks ->
  tx_error (map (fun k => "TX_ERR_STATE|" ++ k) ks) state_get appl_get_all =
  map (fun k => [Some k; state_get ("TX_ERR_STATE|" ++ k) "tx_status";
                 Some (match dict_get (appl_get_all ("TX_ERR_APPL:" ++ k))
                               "tx_error_stati" with
                       | None => ""
                       | Some v => v
                       end)]) ks.
Proof.
  intros H. unfold tx_error. rewrite map_map. apply map_ext_in.
  intros k Hk. rewrite Forall_forall in H. specialize (H k Hk).
  rewrite (py_replace_prefix "TX_ERR_STATE|" k) by (discriminate || exact H).
  reflexivity.
Qed.

Lemma tx_error_rows_witness :
  let sg := fun key field =>
              if String.eqb key "TX_ERR_STATE|Ethernet0" then Some "OK" else None in
  let ag := fun key => if String.eqb key "TX_ERR_APPL:Ethernet0"
                       then [("tx_error_stati", "0")] else [] in
  tx_error ["TX_ERR_STATE|Ethernet0"; "TX_ERR_STATE|Ethernet4"] sg ag
  = [[Some "Ethernet0"; Some "OK"; Some "0"]; [Some "Ethernet4"; None; Some ""]] /\
  tx_error (map (fun k => "TX_ERR_STATE|" ++ k) ["Ethernet0"; "Ethernet4"]) sg ag =
  map (fun k => [Some k; sg ("TX_ERR_STATE|" ++ k) "tx_status";
                 Some (match dict_get (ag ("TX_ERR_APPL:" ++ k)) "tx_error_stati" with
                       | None => ""
                       | Some v => v
                       end)]) ["Ethernet0"; "Ethernet4"].
Proof.
  intros sg ag. split; [reflexivity|].
  apply tx_error_rows. repeat constructor.
Defined.

(** ** Commands handed to [intfutil] *)

(** Extra: when an interface name is given, [show interfaces description]
    (and [status], [tpid], [autoneg status], [link-training status],
    [fec status]) runs [intfutil -c C -i NAME], followed by [-n NS] when a
    namespace is given, and never passes the display option. [NAME] is the
    argument itself in default mode; in alias mode it is a port, other than
    the argument, whose alias is the argument (the converter
    [alias_to_name] being modelled from the spec). *)
Theorem intfutil_cmd_with_name c mode ports i namespace display cmd :
  intfutil_cmd c mode ports (Some i) namespace display = inl cmd ->
  exists n,
    cmd = app ["intfutil"; "-c"; c; "-i"; n]
              (match namespace with Some ns => ["-n"; ns] | None => [] end) /\
    (mode = Default -> n = i) /\
    (mode = AliasMode -> n <> i /\ exists na, In (n, na) ports /\ port_alias n na = i).
Proof.
  unfold intfutil_cmd, bind, ret.
  destruct (try_convert_interfacename_from_alias mode ports i) as [n|e] eqn:Ec;
    [|discriminate].
  intros H. inversion H; subst cmd. exists n. split.
  - destruct namespace; reflexivity.
  - split; intros Hm; subst mode; unfold try_convert_interfacename_from_alias in Ec.
    + inversion Ec. reflexivity.
    + destruct (String.eqb (alias_to_name ports i) i) eqn:E; [discriminate|].
      inversion Ec; subst n. apply String.eqb_neq in E. split; [exact E|].
      apply alias_to_name_found, E.
Qed.

Lemma intfutil_cmd_with_name_witness :
  intfutil_cmd "status" AliasMode sample_ports (Some "etp2") (Some "asic0") (Some "all")
  = inl ["intfutil"; "-c"; "status"; "-i"; "Ethernet4"; "-n"; "asic0"] /\
  exists n,
    ["intfutil"; "-c"; "status"; "-i"; "Ethernet4"; "-n"; "asic0"]
      = app ["intfutil"; "-c"; "status"; "-i"; n] ["-n"; "asic0"] /\
    (AliasMode = Default -> n = "etp2") /\
    (AliasMode = AliasMode -> n <> "etp2" /\
       exists na, In (n, na) sample_ports /\ port_alias n na = "etp2").
Proof.
  assert (E : intfutil_cmd "status" AliasMode sample_ports (Some "etp2") (Some "asic0")
                (Some "all")
              = inl ["intfutil"; "-c"; "status"; "-i"; "Ethernet4"; "-n"; "asic0"])
    by reflexivity.
  split; [exact E|].
  exact (intfutil_cmd_with_name "status" AliasMode sample_ports "etp2" (Some "asic0")
           (Some "all") _ E).
Defined.
